(** * Terminal input decoder: key table, mouse, colour and console decoders

    A shallow embedding of package [input] (table.go and its sibling files)
    together with the properties established about it.

    Conventions of the embedding:
    - Go [int], [uint] (64 bits), [rune], [uint16] values are integers of
      [Z]; every operation or conversion that can wrap is written out
      ([wrap_uint64], [to_rune], ...).
    - a Go [string] is a [string]; a [[]byte] is a [list ascii], and a
      [slice] (the bytes and what lies behind them up to the capacity)
      where the code writes a slice expression with an upper bound, which
      is checked against the capacity.
    - a Go [map] is a [gmap]; ranging over a map visits its entries in an
      unspecified order, which is modelled by the relation [range].
    - a run-time panic (index or slice out of range) is [None]. *)

From stdpp Require Import gmap strings list fin_maps relations.
From Stdlib Require Import ZArith Ascii Lia.

Local Open Scope Z_scope.

(* ================================================================== *)
(** * Bytes, strings and the [strconv] helpers *)

Definition byte_val (c : ascii) : Z := Z.of_N (N_of_ascii c).

(** A rune literal such as ['a']. *)
Definition rune (c : ascii) : Z := byte_val c.

(** [string(byte(b))]: the one-byte string. *)
Definition byte_string (b : Z) : string :=
  String (ascii_of_N (Z.to_N (b mod 256))) "".

(** A Go string literal starting with the escape [\x1b]. *)
Definition X1B (s : string) : string := String "027"%char s.

(** [s[n:]] on a string known to be long enough (used after [HasPrefix]). *)
Fixpoint string_drop (n : nat) (s : string) : string :=
  match n, s with
  | O, _ => s
  | S n', String _ s' => string_drop n' s'
  | S _, EmptyString => EmptyString
  end.

Fixpoint HasPrefix (s p : string) {struct p} : bool :=
  match p, s with
  | EmptyString, _ => true
  | String a p', String b s' => if decide (a = b) then HasPrefix s' p' else false
  | String _ _, EmptyString => false
  end.

(** [strings.Split(s, sep)] for a one-byte separator: the pieces between
    the separators, always at least one piece. *)
Fixpoint Split (s : string) (sep : ascii) : list string :=
  match s with
  | EmptyString => [EmptyString]
  | String c s' =>
      if decide (c = sep) then EmptyString :: Split s' sep
      else match Split s' sep with
           | p :: ps => String c p :: ps
           | [] => [String c EmptyString]
           end
  end.

(** The value of a digit as [strconv] reads it: [0-9], [a-z], [A-Z]. *)
Definition digit_of (c : ascii) : option Z :=
  let n := byte_val c in
  if (48 <=? n) && (n <=? 57) then Some (n - 48)
  else if (97 <=? n) && (n <=? 122) then Some (n - 97 + 10)
  else if (65 <=? n) && (n <=? 90) then Some (n - 65 + 10)
  else None.

(** The digit loop of [strconv.ParseUint] with an explicit base: a byte
    that is not a digit of the base is a syntax error (value 0); a value
    above [maxVal] is a range error (value [maxVal]), reported at once. *)
Fixpoint ParseUint_loop (base maxVal : Z) (s : string) (n : Z) : Z * bool :=
  match s with
  | EmptyString => (n, true)
  | String c s' =>
      match digit_of c with
      | None => (0, false)
      | Some d =>
          if base <=? d then (0, false)
          else if maxVal <? n * base + d then (maxVal, false)
          else ParseUint_loop base maxVal s' (n * base + d)
      end
  end.

(** [strconv.ParseUint(s, base, bitSize)] for an explicit base: the value
    and whether the error is nil. *)
Definition ParseUint (s : string) (base bitSize : Z) : Z * bool :=
  match s with
  | EmptyString => (0, false)
  | _ => ParseUint_loop base (2 ^ bitSize - 1) s 0
  end.

(** [strconv.Atoi]: an optional sign, decimal digits, saturation at the
    ends of the 64-bit range; 0 on a syntax error. *)
Definition Atoi (s : string) : Z :=
  let '(neg, body) :=
    match s with
    | String "-"%char r => (true, r)
    | String "+"%char r => (false, r)
    | _ => (false, s)
    end in
  let '(un, ok) := ParseUint body 10 64 in
  if negb ok && negb (un =? 2 ^ 64 - 1) then 0
  else if neg then (if 2 ^ 63 <? un then - 2 ^ 63 else - un)
  else (if 2 ^ 63 <=? un then 2 ^ 63 - 1 else un).

Definition digit_char (d : Z) : ascii := ascii_of_N (Z.to_N (48 + d)).

Fixpoint Itoa_digits (fuel : nat) (n : Z) (acc : string) : string :=
  match fuel with
  | O => acc
  | S fuel' =>
      let acc' := String (digit_char (n mod 10)) acc in
      if n / 10 =? 0 then acc' else Itoa_digits fuel' (n / 10) acc'
  end.

(** [strconv.Itoa]: 20 digits are enough for a 64-bit integer. *)
Definition Itoa (i : Z) : string :=
  if i <? 0 then String "-"%char (Itoa_digits 20 (- i) "")
  else Itoa_digits 20 i "".

(* ================================================================== *)
(** * The event algebra *)

(** [Mod] is a bit set; its four members are numbered as the table of
    XTerm modifiers in [registerKeys] numbers them ("offset by 1 to be
    compatible with our Mod type"). *)
Definition Mod := Z.

(** Modelled from the spec: the declaration of the modifier bits is not
    among the sources; the spec lists the combinations in the order
    Shift, Alt, Shift+Alt, Ctrl, ..., Meta, ..., that is Shift = 1,
    Alt = 2, Ctrl = 4, Meta = 8. *)
Definition Shift : Mod := 1.
Definition Alt : Mod := 2.
Definition Ctrl : Mod := 4.
Definition Meta : Mod := 8.

(** Modelled from the spec: the declaration of [Mod] is not among the
    sources. The spec makes it a bit set of four flags; its width is taken
    to be 16 bits, unsigned, so that [Mod(u)] keeps the low 16 bits of an
    unsigned [u]. Only this conversion depends on the width. *)
Definition to_Mod (u : Z) : Mod := u mod 2 ^ 16.

Definition wrap_uint64 (z : Z) : Z := z mod 2 ^ 64.

(** [rune(u)]: conversion of an unsigned integer to the signed 32-bit
    [rune]. *)
Definition to_rune (u : Z) : Z := (u + 2 ^ 31) mod 2 ^ 32 - 2 ^ 31.

(** Modelled from the spec: the enumeration of key symbols is not among
    the sources; [KeyNone] is its zero value ("no symbol"). *)
Inductive KeySym : Set :=
  | KeyNone
  | KeyBackspace | KeyTab | KeyEnter | KeyEscape
  | KeySpace | KeyDelete
  | KeyUp | KeyDown | KeyRight | KeyLeft | KeyBegin
  | KeyFind | KeyInsert | KeySelect | KeyPgUp | KeyPgDown | KeyHome | KeyEnd
  | KeyKpEnter | KeyKpEqual | KeyKpMul | KeyKpPlus | KeyKpComma
  | KeyKpMinus | KeyKpPeriod | KeyKpDiv
  | KeyKp0 | KeyKp1 | KeyKp2 | KeyKp3 | KeyKp4
  | KeyKp5 | KeyKp6 | KeyKp7 | KeyKp8 | KeyKp9
  | KeyF1 | KeyF2 | KeyF3 | KeyF4 | KeyF5 | KeyF6 | KeyF7 | KeyF8
  | KeyF9 | KeyF10 | KeyF11 | KeyF12 | KeyF13 | KeyF14 | KeyF15 | KeyF16
  | KeyF17 | KeyF18 | KeyF19 | KeyF20 | KeyF21 | KeyF22 | KeyF23 | KeyF24
  | KeyNumLock | KeyScrollLock | KeyPrintScreen
  | KeyLeftShift | KeyRightShift | KeyLeftCtrl | KeyRightCtrl
  | KeyLeftAlt | KeyRightAlt | KeyLeftSuper | KeyRightSuper | KeyMenu.

#[global] Instance KeySym_eq_dec : EqDecision KeySym.
Proof. solve_decision. Defined.

(** The struct behind [KeyDownEvent] and [KeyUpEvent]. *)
Record Key : Set := mkKey {
  Sym : KeySym;
  Rune : Z;
  KeyMod : Mod;
  IsRepeat : bool
}.

#[global] Instance Key_eq_dec : EqDecision Key.
Proof. solve_decision. Defined.

(** A composite literal [{Sym: s, Rune: r, Mod: m}]; fields that a literal
    leaves out have their zero value. *)
Definition KD (s : KeySym) (r : Z) (m : Mod) : Key :=
  {| Sym := s; Rune := r; KeyMod := m; IsRepeat := false |}.

Definition set_Sym (k : Key) (s : KeySym) : Key :=
  {| Sym := s; Rune := Rune k; KeyMod := KeyMod k; IsRepeat := IsRepeat k |}.
Definition set_Rune (k : Key) (r : Z) : Key :=
  {| Sym := Sym k; Rune := r; KeyMod := KeyMod k; IsRepeat := IsRepeat k |}.
Definition set_Mod (k : Key) (m : Mod) : Key :=
  {| Sym := Sym k; Rune := Rune k; KeyMod := m; IsRepeat := IsRepeat k |}.
Definition set_IsRepeat (k : Key) (b : bool) : Key :=
  {| Sym := Sym k; Rune := Rune k; KeyMod := KeyMod k; IsRepeat := b |}.

(** [k.Mod |= m]. *)
Definition or_Mod (k : Key) (m : Mod) : Key := set_Mod k (Z.lor (KeyMod k) m).

Definition MouseButton := Z.

Definition MouseButtonNone : MouseButton := 0.
Definition MouseButtonLeft : MouseButton := 1.
Definition MouseButtonMiddle : MouseButton := 2.
Definition MouseButtonRight : MouseButton := 3.
Definition MouseButtonWheelUp : MouseButton := 4.
Definition MouseButtonWheelDown : MouseButton := 5.
Definition MouseButtonWheelLeft : MouseButton := 6.
Definition MouseButtonWheelRight : MouseButton := 7.
Definition MouseButtonBackward : MouseButton := 8.
Definition MouseButtonForward : MouseButton := 9.
Definition MouseButton10 : MouseButton := 10.
Definition MouseButton11 : MouseButton := 11.

Record mouse : Set := mkMouse {
  X : Z;
  Y : Z;
  Button : MouseButton;
  MouseMod : Mod
}.

Inductive Color : Set :=
  | RGBA (r g b a : Z)
  | Gray16 (y : Z).

(** [color.Black]. *)
Definition Black : Color := Gray16 0.

#[local] Set Warnings "-register-all".

(** The values of the [Event] interface that the functions below return;
    [nil] is the nil interface. *)
Inductive Event : Set :=
  | nil_Event
  | KeyDownEvent (k : Key)
  | KeyUpEvent (k : Key)
  | MouseDownEvent (m : mouse)
  | MouseUpEvent (m : mouse)
  | MouseMoveEvent (m : mouse)
  | UnknownCsiEvent (buf : list ascii)
  | MultiEvent (es : list Event).

(* ================================================================== *)
(** * Mouse decoders *)

Definition isWheel (b : MouseButton) : bool :=
  (MouseButtonWheelUp <=? b) && (b <=? MouseButtonWheelRight).

Definition bitShift : Z := 4.
Definition bitAlt : Z := 8.
Definition bitCtrl : Z := 16.
Definition bitMotion : Z := 32.
Definition bitWheel : Z := 64.
Definition bitAdd : Z := 128.
Definition bitsMask : Z := 3.

(** [b & m != 0]. *)
Definition has (b m : Z) : bool := negb (Z.land b m =? 0).

Definition parseMouseButton (b : Z) : Mod * MouseButton * bool * bool :=
  let mod_ := 0 in
  let mod_ := if has b bitAlt then Z.lor mod_ Alt else mod_ in
  let mod_ := if has b bitCtrl then Z.lor mod_ Ctrl else mod_ in
  let mod_ := if has b bitShift then Z.lor mod_ Shift else mod_ in
  let '(btn, isRelease) :=
    if has b bitAdd then
      (MouseButtonBackward + Z.land b bitsMask, false)
    else if has b bitWheel then
      (MouseButtonWheelUp + Z.land b bitsMask, false)
    else if Z.land b bitsMask =? bitsMask then
      (MouseButtonNone, true)
    else
      (MouseButtonLeft + Z.land b bitsMask, false) in
  let isMotion := has b bitMotion && negb (isWheel btn) in
  (mod_, btn, isRelease, isMotion).

Definition is_digit (c : ascii) : bool :=
  (48 <=? byte_val c) && (byte_val c <=? 57).

(** The longest run of decimal digits at the head of a string, and the
    rest: what a greedy [\d+] takes. *)
Fixpoint span_digits (s : string) : string * string :=
  match s with
  | EmptyString => (EmptyString, EmptyString)
  | String c s' =>
      if is_digit c then
        let '(d, r) := span_digits s' in (String c d, r)
      else (EmptyString, s)
  end.

(** A match of [(\d+);(\d+);(\d+)([Mm])] that starts at the head of the
    string: the three numbers and the final byte. Each [\d+] is followed by
    a byte that is not a digit, so the greedy run is the only candidate. *)
Definition expect (c : ascii) (s : string) : option string :=
  match s with
  | String c' s' => if decide (c' = c) then Some s' else None
  | EmptyString => None
  end.

Definition nonempty (s : string) : bool :=
  match s with EmptyString => false | String _ _ => true end.

Definition mouseSGR_match_here (s : string) : option (list string) :=
  let '(d1, r1) := span_digits s in
  if negb (nonempty d1) then None else
  match expect ";" r1 with
  | None => None
  | Some r2 =>
      let '(d2, r3) := span_digits r2 in
      if negb (nonempty d2) then None else
      match expect ";" r3 with
      | None => None
      | Some r4 =>
          let '(d3, r5) := span_digits r4 in
          if negb (nonempty d3) then None else
          match r5 with
          | String t _ =>
              if bool_decide (t = "M"%char) || bool_decide (t = "m"%char) then
                let ts := String t EmptyString in
                Some [d1 +:+ ";" +:+ d2 +:+ ";" +:+ d3 +:+ ts; d1; d2; d3; ts]
              else None
          | EmptyString => None
          end
      end
  end.

(** [mouseSGRRegex.FindStringSubmatch]: the leftmost match, or nil. *)
Fixpoint mouseSGRRegex_FindStringSubmatch (s : string) : list string :=
  match mouseSGR_match_here s with
  | Some m => m
  | None =>
      match s with
      | EmptyString => []
      | String _ s' => mouseSGRRegex_FindStringSubmatch s'
      end
  end.

Definition parseSGRMouseEvent (buf : list ascii) : option Event :=
  if (length buf <? 3)%nat then None
  else
    let str := String.string_of_list_ascii (drop 3 buf) in
    match mouseSGRRegex_FindStringSubmatch str with
    | [_; m1; px; py; m4] =>
        let b := Atoi m1 in
        let release := bool_decide (m4 = "m") in
        let '(mod_, btn, _, isMotion) := parseMouseButton b in
        let x := Atoi px in
        let y := Atoi py in
        let x := x - 1 in
        let y := y - 1 in
        let m := {| X := x; Y := y; Button := btn; MouseMod := mod_ |} in
        if negb isMotion && negb (isWheel btn) && release then
          Some (MouseUpEvent m)
        else if isMotion then Some (MouseMoveEvent m)
        else Some (MouseDownEvent m)
    | _ => Some (UnknownCsiEvent buf)
    end.

Definition x10MouseByteOffset : Z := 32.

(** A byte slice together with its capacity: [elems] are the bytes of the
    slice and [spare] the bytes of its backing array behind the end of the
    slice, up to the capacity. An index is checked against the length; the
    upper bound of a slice expression is checked against the capacity.
    [parseX10MouseEvent] is the one decoder that writes an upper bound, so
    it is the one that takes its buffer in this form; the others read
    within the length and take the bytes alone. *)
Record slice : Set := mkSlice {
  elems : list ascii;
  spare : list ascii
}.

Definition slice_len (s : slice) : nat := length (elems s).
Definition slice_cap (s : slice) : nat := length (elems s ++ spare s).

(** [s[lo:hi]]: a run-time panic unless [lo <= hi <= cap(s)]. The result
    has length [hi - lo] and shares the backing array, up to the same
    end. *)
Definition slice_expr (s : slice) (lo hi : nat) : option slice :=
  if (lo <=? hi)%nat && (hi <=? slice_cap s)%nat then
    let arr := elems s ++ spare s in
    Some {| elems := take (hi - lo) (drop lo arr); spare := drop hi arr |}
  else None.

(** [s[i]]: a run-time panic unless [i < len(s)]. *)
Definition slice_index (s : slice) (i : nat) : option ascii := elems s !! i.

Definition parseX10MouseEvent (buf : slice) : option Event :=
  v ← slice_expr buf 3 6;
  v0 ← slice_index v 0;
  let b := byte_val v0 in
  let b := if x10MouseByteOffset <=? b then b - x10MouseByteOffset else b in
  let '(mod_, btn, isRelease, isMotion) := parseMouseButton b in
  v1 ← slice_index v 1;
  v2 ← slice_index v 2;
  let x := byte_val v1 - x10MouseByteOffset - 1 in
  let y := byte_val v2 - x10MouseByteOffset - 1 in
  let m := {| X := x; Y := y; Button := btn; MouseMod := mod_ |} in
  if isMotion then Some (MouseMoveEvent m)
  else if isRelease then Some (MouseUpEvent m)
  else Some (MouseDownEvent m).

(* ================================================================== *)
(** * Colour replies *)

(** [uint8(u)]. *)
Definition to_uint8 (u : Z) : Z := u mod 256.

Definition xParseColor (s : string) : Color :=
  if HasPrefix s "rgb:" then
    match Split (string_drop 4 s) "/" with
    | [p0; p1; p2] =>
        let r := (ParseUint p0 16 32).1 in
        let g := (ParseUint p1 16 32).1 in
        let b := (ParseUint p2 16 32).1 in
        RGBA (to_uint8 r) (to_uint8 g) (to_uint8 b) 255
    | _ => Black
    end
  else if HasPrefix s "rgba:" then
    match Split (string_drop 5 s) "/" with
    | [p0; p1; p2; p3] =>
        let r := (ParseUint p0 16 32).1 in
        let g := (ParseUint p1 16 32).1 in
        let b := (ParseUint p2 16 32).1 in
        let a := (ParseUint p3 16 32).1 in
        RGBA (to_uint8 r) (to_uint8 g) (to_uint8 b) (to_uint8 a)
    | _ => Black
    end
  else Black.

(** The rule the colour forms are documented with: of a component written
    with [n] hexadecimal digits (1 to 4), the most significant 8 bits. A
    component of one or two digits has no more than 8 bits and is kept. *)
Definition msb8 (ndigits : nat) (v : Z) : Z :=
  if (ndigits <=? 2)%nat then v else Z.shiftr v (4 * Z.of_nat ndigits - 8).

Definition is_hex_digit (c : ascii) : bool :=
  match digit_of c with
  | Some d => d <? 16
  | None => false
  end.

Fixpoint all_hex (s : string) : bool :=
  match s with
  | EmptyString => true
  | String c s' => is_hex_digit c && all_hex s'
  end.

(** The number that hexadecimal digits write, continuing from [n]. *)
Fixpoint hex_value_from (n : Z) (s : string) : Z :=
  match s with
  | EmptyString => n
  | String c s' =>
      hex_value_from
        (n * 16 + match digit_of c with Some d => d | None => 0 end) s'
  end.

Definition hex_value (s : string) : Z := hex_value_from 0 s.

(** A colour component: 1 to 4 hexadecimal digits. *)
Definition hex_component (s : string) : bool :=
  all_hex s && (1 <=? String.length s)%nat && (String.length s <=? 4)%nat.

(* ================================================================== *)
(** * XTerm modifyOtherKeys *)

(** Modelled from the spec: the C0 names of package [ansi] are not among
    the sources; they are the ASCII control codes. *)
Module ansi.
Definition NUL : Z := 0.
Definition SOH : Z := 1.
Definition STX : Z := 2.
Definition ETX : Z := 3.
Definition EOT : Z := 4.
Definition ENQ : Z := 5.
Definition ACK : Z := 6.
Definition BEL : Z := 7.
Definition BS : Z := 8.
Definition HT : Z := 9.
Definition LF : Z := 10.
Definition VT : Z := 11.
Definition FF : Z := 12.
Definition CR : Z := 13.
Definition SO : Z := 14.
Definition SI : Z := 15.
Definition DLE : Z := 16.
Definition DC1 : Z := 17.
Definition DC2 : Z := 18.
Definition DC3 : Z := 19.
Definition DC4 : Z := 20.
Definition NAK : Z := 21.
Definition SYN : Z := 22.
Definition ETB : Z := 23.
Definition CAN : Z := 24.
Definition EM : Z := 25.
Definition SUB : Z := 26.
Definition ESC : Z := 27.
Definition FS : Z := 28.
Definition GS : Z := 29.
Definition RS : Z := 30.
Definition US : Z := 31.
Definition SP : Z := 32.
Definition DEL : Z := 127.
End ansi.

Definition modifyOtherKeys : gmap Z Key :=
  list_to_map [
    (ansi.BS, KD KeyBackspace 0 0);
    (ansi.HT, KD KeyTab 0 0);
    (ansi.CR, KD KeyEnter 0 0);
    (ansi.ESC, KD KeyEscape 0 0);
    (ansi.DEL, KD KeyBackspace 0 0)
  ].

(** [params[i][0]]; [None] where the index expression panics. *)
Definition param0 (params : list (list Z)) (i : nat) : option Z :=
  match params !! i with
  | Some (p :: _) => Some p
  | _ => None
  end.

Definition parseXTermModifyOtherKeys (params : list (list Z)) : option Event :=
  match param0 params 1 with
  | None => None
  | Some p1 =>
      let mod_ := to_Mod (wrap_uint64 (p1 - 1)) in
      match param0 params 2 with
      | None => None
      | Some p2 =>
          let r := to_rune p2 in
          match modifyOtherKeys !! r with
          | Some k => Some (KeyDownEvent (set_Mod k mod_))
          | None => Some (KeyDownEvent (KD KeyNone r mod_))
          end
      end
  end.

(* ================================================================== *)
(** * Windows console key records *)

(** The constants of the console input API that the translator uses
    (package [coninput] wraps the API and is not part of this package):
    control-key state bits and virtual-key codes. *)
Module coninput.
Definition RIGHT_ALT_PRESSED : Z := 0x0001.
Definition LEFT_ALT_PRESSED : Z := 0x0002.
Definition RIGHT_CTRL_PRESSED : Z := 0x0004.
Definition LEFT_CTRL_PRESSED : Z := 0x0008.
Definition SHIFT_PRESSED : Z := 0x0010.
Definition NUMLOCK_ON : Z := 0x0020.
Definition SCROLLLOCK_ON : Z := 0x0040.
Definition CAPSLOCK_ON : Z := 0x0080.

(** [cks.Contains(state)]: some bit of [state] is set in [cks]. *)
Definition Contains (cks state : Z) : bool := 0 <? Z.land cks state.

Definition VK_BACK : Z := 0x08.
Definition VK_TAB : Z := 0x09.
Definition VK_RETURN : Z := 0x0D.
Definition VK_ESCAPE : Z := 0x1B.
Definition VK_SPACE : Z := 0x20.
Definition VK_PRIOR : Z := 0x21.
Definition VK_NEXT : Z := 0x22.
Definition VK_END : Z := 0x23.
Definition VK_HOME : Z := 0x24.
Definition VK_LEFT : Z := 0x25.
Definition VK_UP : Z := 0x26.
Definition VK_RIGHT : Z := 0x27.
Definition VK_DOWN : Z := 0x28.
Definition VK_SELECT : Z := 0x29.
Definition VK_SNAPSHOT : Z := 0x2C.
Definition VK_INSERT : Z := 0x2D.
Definition VK_DELETE : Z := 0x2E.
Definition VK_LWIN : Z := 0x5B.
Definition VK_RWIN : Z := 0x5C.
Definition VK_APPS : Z := 0x5D.
Definition VK_NUMPAD0 : Z := 0x60.
Definition VK_NUMPAD1 : Z := 0x61.
Definition VK_NUMPAD2 : Z := 0x62.
Definition VK_NUMPAD3 : Z := 0x63.
Definition VK_NUMPAD4 : Z := 0x64.
Definition VK_NUMPAD5 : Z := 0x65.
Definition VK_NUMPAD6 : Z := 0x66.
Definition VK_NUMPAD7 : Z := 0x67.
Definition VK_NUMPAD8 : Z := 0x68.
Definition VK_NUMPAD9 : Z := 0x69.
Definition VK_MULTIPLY : Z := 0x6A.
Definition VK_ADD : Z := 0x6B.
Definition VK_SEPARATOR : Z := 0x6C.
Definition VK_SUBTRACT : Z := 0x6D.
Definition VK_DECIMAL : Z := 0x6E.
Definition VK_DIVIDE : Z := 0x6F.
Definition VK_F1 : Z := 0x70.
Definition VK_F2 : Z := 0x71.
Definition VK_F3 : Z := 0x72.
Definition VK_F4 : Z := 0x73.
Definition VK_F5 : Z := 0x74.
Definition VK_F6 : Z := 0x75.
Definition VK_F7 : Z := 0x76.
Definition VK_F8 : Z := 0x77.
Definition VK_F9 : Z := 0x78.
Definition VK_F10 : Z := 0x79.
Definition VK_F11 : Z := 0x7A.
Definition VK_F12 : Z := 0x7B.
Definition VK_F13 : Z := 0x7C.
Definition VK_F14 : Z := 0x7D.
Definition VK_F15 : Z := 0x7E.
Definition VK_F16 : Z := 0x7F.
Definition VK_F17 : Z := 0x80.
Definition VK_F18 : Z := 0x81.
Definition VK_F19 : Z := 0x82.
Definition VK_F20 : Z := 0x83.
Definition VK_F21 : Z := 0x84.
Definition VK_F22 : Z := 0x85.
Definition VK_F23 : Z := 0x86.
Definition VK_F24 : Z := 0x87.
Definition VK_NUMLOCK : Z := 0x90.
Definition VK_SCROLL : Z := 0x91.
Definition VK_LSHIFT : Z := 0xA0.
Definition VK_RSHIFT : Z := 0xA1.
Definition VK_LCONTROL : Z := 0xA2.
Definition VK_RCONTROL : Z := 0xA3.
Definition VK_LMENU : Z := 0xA4.
Definition VK_RMENU : Z := 0xA5.
Definition VK_OEM_4 : Z := 0xDB.
End coninput.

Definition vkKeyEvent : gmap Z Key :=
  list_to_map [
    (coninput.VK_RETURN, KD KeyEnter 0 0);
    (coninput.VK_BACK, KD KeyBackspace 0 0);
    (coninput.VK_TAB, KD KeyTab 0 0);
    (coninput.VK_ESCAPE, KD KeyEscape 0 0);
    (coninput.VK_SPACE, KD KeySpace (rune " ") 0);
    (coninput.VK_UP, KD KeyUp 0 0);
    (coninput.VK_DOWN, KD KeyDown 0 0);
    (coninput.VK_RIGHT, KD KeyRight 0 0);
    (coninput.VK_LEFT, KD KeyLeft 0 0);
    (coninput.VK_HOME, KD KeyHome 0 0);
    (coninput.VK_END, KD KeyEnd 0 0);
    (coninput.VK_PRIOR, KD KeyPgUp 0 0);
    (coninput.VK_NEXT, KD KeyPgDown 0 0);
    (coninput.VK_DELETE, KD KeyDelete 0 0);
    (coninput.VK_SELECT, KD KeySelect 0 0);
    (coninput.VK_SNAPSHOT, KD KeyPrintScreen 0 0);
    (coninput.VK_INSERT, KD KeyInsert 0 0);
    (coninput.VK_LWIN, KD KeyLeftSuper 0 0);
    (coninput.VK_RWIN, KD KeyRightSuper 0 0);
    (coninput.VK_APPS, KD KeyMenu 0 0);
    (coninput.VK_NUMPAD0, KD KeyKp0 0 0);
    (coninput.VK_NUMPAD1, KD KeyKp1 0 0);
    (coninput.VK_NUMPAD2, KD KeyKp2 0 0);
    (coninput.VK_NUMPAD3, KD KeyKp3 0 0);
    (coninput.VK_NUMPAD4, KD KeyKp4 0 0);
    (coninput.VK_NUMPAD5, KD KeyKp5 0 0);
    (coninput.VK_NUMPAD6, KD KeyKp6 0 0);
    (coninput.VK_NUMPAD7, KD KeyKp7 0 0);
    (coninput.VK_NUMPAD8, KD KeyKp8 0 0);
    (coninput.VK_NUMPAD9, KD KeyKp9 0 0);
    (coninput.VK_MULTIPLY, KD KeyKpMul 0 0);
    (coninput.VK_ADD, KD KeyKpPlus 0 0);
    (coninput.VK_SEPARATOR, KD KeyKpComma 0 0);
    (coninput.VK_SUBTRACT, KD KeyKpMinus 0 0);
    (coninput.VK_DECIMAL, KD KeyKpPeriod 0 0);
    (coninput.VK_DIVIDE, KD KeyKpDiv 0 0);
    (coninput.VK_F1, KD KeyF1 0 0);
    (coninput.VK_F2, KD KeyF2 0 0);
    (coninput.VK_F3, KD KeyF3 0 0);
    (coninput.VK_F4, KD KeyF4 0 0);
    (coninput.VK_F5, KD KeyF5 0 0);
    (coninput.VK_F6, KD KeyF6 0 0);
    (coninput.VK_F7, KD KeyF7 0 0);
    (coninput.VK_F8, KD KeyF8 0 0);
    (coninput.VK_F9, KD KeyF9 0 0);
    (coninput.VK_F10, KD KeyF10 0 0);
    (coninput.VK_F11, KD KeyF11 0 0);
    (coninput.VK_F12, KD KeyF12 0 0);
    (coninput.VK_F13, KD KeyF13 0 0);
    (coninput.VK_F14, KD KeyF14 0 0);
    (coninput.VK_F15, KD KeyF15 0 0);
    (coninput.VK_F16, KD KeyF16 0 0);
    (coninput.VK_F17, KD KeyF17 0 0);
    (coninput.VK_F18, KD KeyF18 0 0);
    (coninput.VK_F19, KD KeyF19 0 0);
    (coninput.VK_F20, KD KeyF20 0 0);
    (coninput.VK_F21, KD KeyF21 0 0);
    (coninput.VK_F22, KD KeyF22 0 0);
    (coninput.VK_F23, KD KeyF23 0 0);
    (coninput.VK_F24, KD KeyF24 0 0);
    (coninput.VK_NUMLOCK, KD KeyNumLock 0 0);
    (coninput.VK_SCROLL, KD KeyScrollLock 0 0);
    (coninput.VK_LSHIFT, KD KeyLeftShift 0 0);
    (coninput.VK_RSHIFT, KD KeyRightShift 0 0);
    (coninput.VK_LCONTROL, KD KeyLeftCtrl 0 0);
    (coninput.VK_RCONTROL, KD KeyRightCtrl 0 0);
    (coninput.VK_LMENU, KD KeyLeftAlt 0 0);
    (coninput.VK_RMENU, KD KeyRightAlt 0 0);
    (coninput.VK_OEM_4, KD KeyNone (rune "[") 0)
  ].

(** The first [switch] of [vkCtrlRune]: the letter of a control
    character, where there is a case for it. *)
Definition ctrlRune (r : Z) : option Z :=
  match r with
  | 64 => Some (rune "@")
  | 1 => Some (rune "a")
  | 2 => Some (rune "b")
  | 3 => Some (rune "c")
  | 4 => Some (rune "d")
  | 5 => Some (rune "e")
  | 6 => Some (rune "f")
  | 7 => Some (rune "g")
  | 8 => Some (rune "h")
  | 9 => Some (rune "i")
  | 10 => Some (rune "j")
  | 11 => Some (rune "k")
  | 12 => Some (rune "l")
  | 13 => Some (rune "m")
  | 14 => Some (rune "n")
  | 15 => Some (rune "o")
  | 16 => Some (rune "p")
  | 17 => Some (rune "q")
  | 18 => Some (rune "r")
  | 19 => Some (rune "s")
  | 20 => Some (rune "t")
  | 21 => Some (rune "u")
  | 22 => Some (rune "v")
  | 23 => Some (rune "w")
  | 24 => Some (rune "x")
  | 25 => Some (rune "y")
  | 26 => Some (rune "z")
  | 27 => Some (rune "]")
  | 28 => Some (rune "\")
  | 31 => Some (rune "_")
  | _ => None
  end.

Definition vkCtrlRune (k : Key) (r : Z) (kc : Z) : Key :=
  let k := match ctrlRune r with Some c => set_Rune k c | None => k end in
  let k := if kc =? coninput.VK_OEM_4 then set_Rune k (rune "[") else k in
  k.

Definition parseWin32InputKeyEvent
    (vkc : Z) (_ : Z) (r : Z) (keyDown : bool) (cks : Z) (repeatCount : Z)
    : Event :=
  let isCtrl :=
    coninput.Contains cks
      (Z.lor coninput.LEFT_CTRL_PRESSED coninput.RIGHT_CTRL_PRESSED) in
  (* k, ok := vkKeyEvent[vkc]: a miss leaves the zero Key in k *)
  let '(k, ok) :=
    match vkKeyEvent !! vkc with
    | Some k => (k, true)
    | None => (KD KeyNone 0 0, false)
    end in
  let k :=
    if negb ok && isCtrl then vkCtrlRune k r vkc
    else if negb ok then KD KeyNone r 0
    else k in
  let k := if isCtrl then or_Mod k Ctrl else k in
  let k :=
    if coninput.Contains cks
         (Z.lor coninput.LEFT_ALT_PRESSED coninput.RIGHT_ALT_PRESSED)
    then or_Mod k Alt else k in
  let k := if coninput.Contains cks coninput.SHIFT_PRESSED
           then or_Mod k Shift else k in
  if coninput.Contains cks
       (Z.lor (Z.lor coninput.NUMLOCK_ON coninput.CAPSLOCK_ON)
              coninput.SCROLLLOCK_ON)
     && (Rune k =? 0) && bool_decide (Sym k = KeyNone)
  then nil_Event
  else
    (* e holds a copy of k taken before IsRepeat is assigned *)
    let e := KeyDownEvent k in
    let k := set_IsRepeat k (1 <? repeatCount) in
    let e := if negb keyDown then KeyUpEvent k else e in
    if repeatCount <=? 1 then e
    else MultiEvent (replicate (Z.to_nat repeatCount) e).

(* ================================================================== *)
(** * Key table construction *)

Abbreviation Table := (gmap string Key).

(** Modelled from the spec: the capability flags are not declared in the
    sources; they are distinct bits, taken in the order in which the spec
    lists them. Only the tests [flags & F != 0] depend on them. *)
Definition FlagCtrlAt : Z := 1.
Definition FlagSpace : Z := 2.
Definition FlagCtrlI : Z := 4.
Definition FlagCtrlM : Z := 8.
Definition FlagCtrlOpenBracket : Z := 16.
Definition FlagBackspace : Z := 32.
Definition FlagFind : Z := 64.
Definition FlagSelect : Z := 128.
Definition FlagNoXTerm : Z := 256.
Definition FlagNoTerminfo : Z := 512.

(** The flag-dependent events computed at the head of [registerKeys]. *)
Definition nul (flags : Z) : Key :=
  let nul := KD KeySpace 0 Ctrl in
  let nul := if has flags FlagSpace then KD KeyNone (rune " ") Ctrl else nul in
  if has flags FlagCtrlAt then KD KeyNone (rune "@") Ctrl else nul.

Definition tab (flags : Z) : Key :=
  if has flags FlagCtrlI then KD KeyNone (rune "i") Ctrl else KD KeyTab 0 0.

Definition enter (flags : Z) : Key :=
  if has flags FlagCtrlM then KD KeyNone (rune "m") Ctrl else KD KeyEnter 0 0.

Definition esc (flags : Z) : Key :=
  if has flags FlagCtrlOpenBracket then KD KeyNone (rune "[") Ctrl
  else KD KeyEscape 0 0.

Definition sp (flags : Z) : Key :=
  if has flags FlagSpace then KD KeyNone (rune " ") 0
  else KD KeySpace (rune " ") 0.

Definition del (flags : Z) : Key :=
  let del := KD KeyBackspace 0 0 in
  if has flags FlagBackspace then set_Sym del KeyDelete else del.

Definition find (flags : Z) : Key :=
  let find := KD KeyHome 0 0 in
  if has flags FlagFind then set_Sym find KeyFind else find.

Definition sel (flags : Z) : Key :=
  let sel := KD KeyEnd 0 0 in
  if has flags FlagSelect then set_Sym sel KeySelect else sel.

(** The composite literal assigned to [d.table]. *)
Definition table_literal (nul tab enter esc sp del find sel : Key) : list (string * Key) :=
  [
    (byte_string ansi.NUL, nul);
    (byte_string ansi.SOH, KD KeyNone (rune "a") Ctrl);
    (byte_string ansi.STX, KD KeyNone (rune "b") Ctrl);
    (byte_string ansi.ETX, KD KeyNone (rune "c") Ctrl);
    (byte_string ansi.EOT, KD KeyNone (rune "d") Ctrl);
    (byte_string ansi.ENQ, KD KeyNone (rune "e") Ctrl);
    (byte_string ansi.ACK, KD KeyNone (rune "f") Ctrl);
    (byte_string ansi.BEL, KD KeyNone (rune "g") Ctrl);
    (byte_string ansi.BS, KD KeyNone (rune "h") Ctrl);
    (byte_string ansi.HT, tab);
    (byte_string ansi.LF, KD KeyNone (rune "j") Ctrl);
    (byte_string ansi.VT, KD KeyNone (rune "k") Ctrl);
    (byte_string ansi.FF, KD KeyNone (rune "l") Ctrl);
    (byte_string ansi.CR, enter);
    (byte_string ansi.SO, KD KeyNone (rune "n") Ctrl);
    (byte_string ansi.SI, KD KeyNone (rune "o") Ctrl);
    (byte_string ansi.DLE, KD KeyNone (rune "p") Ctrl);
    (byte_string ansi.DC1, KD KeyNone (rune "q") Ctrl);
    (byte_string ansi.DC2, KD KeyNone (rune "r") Ctrl);
    (byte_string ansi.DC3, KD KeyNone (rune "s") Ctrl);
    (byte_string ansi.DC4, KD KeyNone (rune "t") Ctrl);
    (byte_string ansi.NAK, KD KeyNone (rune "u") Ctrl);
    (byte_string ansi.SYN, KD KeyNone (rune "v") Ctrl);
    (byte_string ansi.ETB, KD KeyNone (rune "w") Ctrl);
    (byte_string ansi.CAN, KD KeyNone (rune "x") Ctrl);
    (byte_string ansi.EM, KD KeyNone (rune "y") Ctrl);
    (byte_string ansi.SUB, KD KeyNone (rune "z") Ctrl);
    (byte_string ansi.ESC, esc);
    (byte_string ansi.FS, KD KeyNone (rune "\") Ctrl);
    (byte_string ansi.GS, KD KeyNone (rune "]") Ctrl);
    (byte_string ansi.RS, KD KeyNone (rune "^") Ctrl);
    (byte_string ansi.US, KD KeyNone (rune "_") Ctrl);
    (byte_string ansi.SP, sp);
    (byte_string ansi.DEL, del);
    (X1B "[Z", KD KeyTab 0 Shift);
    (X1B "[1~", find);
    (X1B "[2~", KD KeyInsert 0 0);
    (X1B "[3~", KD KeyDelete 0 0);
    (X1B "[4~", sel);
    (X1B "[5~", KD KeyPgUp 0 0);
    (X1B "[6~", KD KeyPgDown 0 0);
    (X1B "[7~", KD KeyHome 0 0);
    (X1B "[8~", KD KeyEnd 0 0);
    (X1B "[A", KD KeyUp 0 0);
    (X1B "[B", KD KeyDown 0 0);
    (X1B "[C", KD KeyRight 0 0);
    (X1B "[D", KD KeyLeft 0 0);
    (X1B "[E", KD KeyBegin 0 0);
    (X1B "[F", KD KeyEnd 0 0);
    (X1B "[H", KD KeyHome 0 0);
    (X1B "[P", KD KeyF1 0 0);
    (X1B "[Q", KD KeyF2 0 0);
    (X1B "[R", KD KeyF3 0 0);
    (X1B "[S", KD KeyF4 0 0);
    (X1B "OA", KD KeyUp 0 0);
    (X1B "OB", KD KeyDown 0 0);
    (X1B "OC", KD KeyRight 0 0);
    (X1B "OD", KD KeyLeft 0 0);
    (X1B "OE", KD KeyBegin 0 0);
    (X1B "OF", KD KeyEnd 0 0);
    (X1B "OH", KD KeyHome 0 0);
    (X1B "OP", KD KeyF1 0 0);
    (X1B "OQ", KD KeyF2 0 0);
    (X1B "OR", KD KeyF3 0 0);
    (X1B "OS", KD KeyF4 0 0);
    (X1B "OM", KD KeyKpEnter 0 0);
    (X1B "OX", KD KeyKpEqual 0 0);
    (X1B "Oj", KD KeyKpMul 0 0);
    (X1B "Ok", KD KeyKpPlus 0 0);
    (X1B "Ol", KD KeyKpComma 0 0);
    (X1B "Om", KD KeyKpMinus 0 0);
    (X1B "On", KD KeyKpPeriod 0 0);
    (X1B "Oo", KD KeyKpDiv 0 0);
    (X1B "Op", KD KeyKp0 0 0);
    (X1B "Oq", KD KeyKp1 0 0);
    (X1B "Or", KD KeyKp2 0 0);
    (X1B "Os", KD KeyKp3 0 0);
    (X1B "Ot", KD KeyKp4 0 0);
    (X1B "Ou", KD KeyKp5 0 0);
    (X1B "Ov", KD KeyKp6 0 0);
    (X1B "Ow", KD KeyKp7 0 0);
    (X1B "Ox", KD KeyKp8 0 0);
    (X1B "Oy", KD KeyKp9 0 0);
    (X1B "[11~", KD KeyF1 0 0);
    (X1B "[12~", KD KeyF2 0 0);
    (X1B "[13~", KD KeyF3 0 0);
    (X1B "[14~", KD KeyF4 0 0);
    (X1B "[15~", KD KeyF5 0 0);
    (X1B "[17~", KD KeyF6 0 0);
    (X1B "[18~", KD KeyF7 0 0);
    (X1B "[19~", KD KeyF8 0 0);
    (X1B "[20~", KD KeyF9 0 0);
    (X1B "[21~", KD KeyF10 0 0);
    (X1B "[23~", KD KeyF11 0 0);
    (X1B "[24~", KD KeyF12 0 0);
    (X1B "[25~", KD KeyF13 0 0);
    (X1B "[26~", KD KeyF14 0 0);
    (X1B "[28~", KD KeyF15 0 0);
    (X1B "[29~", KD KeyF16 0 0);
    (X1B "[31~", KD KeyF17 0 0);
    (X1B "[32~", KD KeyF18 0 0);
    (X1B "[33~", KD KeyF19 0 0);
    (X1B "[34~", KD KeyF20 0 0)
  ].

Definition csiFuncKeys_literal : list (string * Key) :=
  [
    ("A", KD KeyUp 0 0);
    ("B", KD KeyDown 0 0);
    ("C", KD KeyRight 0 0);
    ("D", KD KeyLeft 0 0);
    ("E", KD KeyBegin 0 0);
    ("F", KD KeyEnd 0 0);
    ("H", KD KeyHome 0 0);
    ("P", KD KeyF1 0 0);
    ("Q", KD KeyF2 0 0);
    ("R", KD KeyF3 0 0);
    ("S", KD KeyF4 0 0)
  ].

Definition ss3FuncKeys_literal : list (string * Key) :=
  [
    ("M", KD KeyKpEnter 0 0);
    ("X", KD KeyKpEqual 0 0);
    ("j", KD KeyKpMul 0 0);
    ("k", KD KeyKpPlus 0 0);
    ("l", KD KeyKpComma 0 0);
    ("m", KD KeyKpMinus 0 0);
    ("n", KD KeyKpPeriod 0 0);
    ("o", KD KeyKpDiv 0 0);
    ("p", KD KeyKp0 0 0);
    ("q", KD KeyKp1 0 0);
    ("r", KD KeyKp2 0 0);
    ("s", KD KeyKp3 0 0);
    ("t", KD KeyKp4 0 0);
    ("u", KD KeyKp5 0 0);
    ("v", KD KeyKp6 0 0);
    ("w", KD KeyKp7 0 0);
    ("x", KD KeyKp8 0 0);
    ("y", KD KeyKp9 0 0)
  ].

Definition csiTildeKeys_literal (find sel : Key) : list (string * Key) :=
  [
    ("1", find);
    ("2", KD KeyInsert 0 0);
    ("3", KD KeyDelete 0 0);
    ("4", sel);
    ("5", KD KeyPgUp 0 0);
    ("6", KD KeyPgDown 0 0);
    ("7", KD KeyHome 0 0);
    ("8", KD KeyEnd 0 0);
    ("11", KD KeyF1 0 0);
    ("12", KD KeyF2 0 0);
    ("13", KD KeyF3 0 0);
    ("14", KD KeyF4 0 0);
    ("15", KD KeyF5 0 0);
    ("17", KD KeyF6 0 0);
    ("18", KD KeyF7 0 0);
    ("19", KD KeyF8 0 0);
    ("20", KD KeyF9 0 0);
    ("21", KD KeyF10 0 0);
    ("23", KD KeyF11 0 0);
    ("24", KD KeyF12 0 0);
    ("25", KD KeyF13 0 0);
    ("26", KD KeyF14 0 0);
    ("28", KD KeyF15 0 0);
    ("29", KD KeyF16 0 0);
    ("31", KD KeyF17 0 0);
    ("32", KD KeyF18 0 0);
    ("33", KD KeyF19 0 0);
    ("34", KD KeyF20 0 0)
  ].

Definition urxvt_arrow_keys : list (string * Key) :=
  [
    (X1B "[a", KD KeyUp 0 Shift);
    (X1B "[b", KD KeyDown 0 Shift);
    (X1B "[c", KD KeyRight 0 Shift);
    (X1B "[d", KD KeyLeft 0 Shift);
    (X1B "Oa", KD KeyUp 0 Ctrl);
    (X1B "Ob", KD KeyDown 0 Ctrl);
    (X1B "Oc", KD KeyRight 0 Ctrl);
    (X1B "Od", KD KeyLeft 0 Ctrl)
  ].

Definition urxvt_function_keys : list (string * Key) :=
  [
    (X1B "[23$", KD KeyF11 0 Shift);
    (X1B "[24$", KD KeyF12 0 Shift);
    (X1B "[25$", KD KeyF13 0 Shift);
    (X1B "[26$", KD KeyF14 0 Shift);
    (X1B "[28$", KD KeyF15 0 Shift);
    (X1B "[29$", KD KeyF16 0 Shift);
    (X1B "[31$", KD KeyF17 0 Shift);
    (X1B "[32$", KD KeyF18 0 Shift);
    (X1B "[33$", KD KeyF19 0 Shift);
    (X1B "[34$", KD KeyF20 0 Shift);
    (X1B "[11^", KD KeyF1 0 Ctrl);
    (X1B "[12^", KD KeyF2 0 Ctrl);
    (X1B "[13^", KD KeyF3 0 Ctrl);
    (X1B "[14^", KD KeyF4 0 Ctrl);
    (X1B "[15^", KD KeyF5 0 Ctrl);
    (X1B "[17^", KD KeyF6 0 Ctrl);
    (X1B "[18^", KD KeyF7 0 Ctrl);
    (X1B "[19^", KD KeyF8 0 Ctrl);
    (X1B "[20^", KD KeyF9 0 Ctrl);
    (X1B "[21^", KD KeyF10 0 Ctrl);
    (X1B "[23^", KD KeyF11 0 Ctrl);
    (X1B "[24^", KD KeyF12 0 Ctrl);
    (X1B "[25^", KD KeyF13 0 Ctrl);
    (X1B "[26^", KD KeyF14 0 Ctrl);
    (X1B "[28^", KD KeyF15 0 Ctrl);
    (X1B "[29^", KD KeyF16 0 Ctrl);
    (X1B "[31^", KD KeyF17 0 Ctrl);
    (X1B "[32^", KD KeyF18 0 Ctrl);
    (X1B "[33^", KD KeyF19 0 Ctrl);
    (X1B "[34^", KD KeyF20 0 Ctrl);
    (X1B "[23@", KD KeyF11 0 (Z.lor Shift Ctrl));
    (X1B "[24@", KD KeyF12 0 (Z.lor Shift Ctrl));
    (X1B "[25@", KD KeyF13 0 (Z.lor Shift Ctrl));
    (X1B "[26@", KD KeyF14 0 (Z.lor Shift Ctrl));
    (X1B "[28@", KD KeyF15 0 (Z.lor Shift Ctrl));
    (X1B "[29@", KD KeyF16 0 (Z.lor Shift Ctrl));
    (X1B "[31@", KD KeyF17 0 (Z.lor Shift Ctrl));
    (X1B "[32@", KD KeyF18 0 (Z.lor Shift Ctrl));
    (X1B "[33@", KD KeyF19 0 (Z.lor Shift Ctrl));
    (X1B "[34@", KD KeyF20 0 (Z.lor Shift Ctrl))
  ].

Definition csiFuncKeys : Table := list_to_map csiFuncKeys_literal.
Definition ss3FuncKeys : Table := list_to_map ss3FuncKeys_literal.
Definition csiTildeKeys (find sel : Key) : Table :=
  list_to_map (csiTildeKeys_literal find sel).

(** XTerm modifiers, "offset by 1 to be compatible with our Mod type". *)
Definition modifiers : list Mod :=
  [ Shift;
    Alt;
    Z.lor Shift Alt;
    Ctrl;
    Z.lor Shift Ctrl;
    Z.lor Alt Ctrl;
    Z.lor (Z.lor Shift Alt) Ctrl;
    Meta;
    Z.lor Meta Shift;
    Z.lor Meta Alt;
    Z.lor (Z.lor Meta Shift) Alt;
    Z.lor Meta Ctrl;
    Z.lor (Z.lor Meta Shift) Ctrl;
    Z.lor (Z.lor Meta Alt) Ctrl;
    Z.lor (Z.lor (Z.lor Meta Shift) Alt) Ctrl ].

(** ** Loops

    [for k, v := range m { body }] over a map that the body does not
    change: the entries are visited once each, in an order that the
    language leaves open. *)
Definition range `{Countable K} {V S : Type}
    (m : gmap K V) (body : K → V → S → S) (s s' : S) : Prop :=
  ∃ l, l ≡ₚ map_to_list m ∧ s' = foldl (λ acc kv, body kv.1 kv.2 acc) s l.

(** [for _, a := range l { body }] over a slice: in order. *)
Fixpoint for_slice {A S : Type}
    (l : list A) (body : A → S → S → Prop) (s s' : S) : Prop :=
  match l with
  | [] => s' = s
  | a :: l' => ∃ s1, body a s s1 ∧ for_slice l' body s1 s'
  end.

(** A run of assignments [d.table[k] = v], in order. *)
Definition assign (l : list (string * Key)) (T : Table) : Table :=
  foldl (λ t kv, <[kv.1 := kv.2]> t) T l.

(** ** The phases of [registerKeys] *)

(** The body of [for _, m := range modifiers]. *)
Definition xtermKeys (find sel : Key) (m : Mod) (T T' : Table) : Prop :=
  let xtermMod := Itoa (m + 1) in
  ∃ T1 T2 T3,
    range csiFuncKeys
      (λ k v t, <[X1B "[1;" +:+ xtermMod +:+ k := set_Mod v m]> t) T T1 ∧
    range ss3FuncKeys
      (λ k v t, <[X1B "O" +:+ xtermMod +:+ k := set_Mod v m]> t) T1 T2 ∧
    range (csiTildeKeys find sel)
      (λ k v t, <[X1B "[" +:+ k +:+ ";" +:+ xtermMod +:+ "~" := set_Mod v m]> t)
      T2 T3 ∧
    range modifyOtherKeys
      (λ k v t,
         let code := Itoa k in
         <[X1B "[27;" +:+ xtermMod +:+ ";" +:+ code +:+ "~" := set_Mod v m]> t)
      T3 T'.

(** The body of the loop over [csiTildeKeys] for the URxvt suffixes. *)
Definition urxvtTilde (k : string) (v : Key) (t : Table) : Table :=
  let key := v in
  let key := set_Mod key Shift in
  let t := <[X1B "[" +:+ k +:+ "$" := key]> t in
  let key := set_Mod key Ctrl in
  let t := <[X1B "[" +:+ k +:+ "^" := key]> t in
  let key := set_Mod key (Z.lor Shift Ctrl) in
  <[X1B "[" +:+ k +:+ "@" := key]> t.

(** The table when the loop "Register Alt + <key> combinations" starts. *)
Definition tableBeforeAlt (flags : Z) (T : Table) : Prop :=
  let T0 : Table :=
    list_to_map
      (table_literal (nul flags) (tab flags) (enter flags) (esc flags)
         (sp flags) (del flags) (find flags) (sel flags)) in
  ∃ T1 T2,
    (if has flags FlagNoXTerm then T1 = T0
     else for_slice modifiers (xtermKeys (find flags) (sel flags)) T0 T1) ∧
    range (csiTildeKeys (find flags) (sel flags)) urxvtTilde
      (assign urxvt_arrow_keys T1) T2 ∧
    T = assign urxvt_function_keys T2.

(** [for k, v := range d.table { v.Mod |= Alt; d.table["\x1b"+k] = v }]:
    the loop inserts into the map it ranges over. By the rules of the
    language, every entry that is in the map when the loop starts is
    visited once (the body removes none), and an entry created during the
    iteration may be produced during the iteration or may be skipped, a
    choice that may vary from entry to entry and from run to run. A state
    is the table and the set of keys visited so far; a visit reads the
    value that the key has at that moment. *)
Inductive altStep : Table * gset string → Table * gset string → Prop :=
  | altStep_visit (T : Table) (seen : gset string) (k : string) (v : Key) :
      T !! k = Some v →
      k ∉ seen →
      altStep (T, seen) (<[X1B k := or_Mod v Alt]> T, {[k]} ∪ seen).

Definition altKeys (T0 T : Table) : Prop :=
  ∃ seen, rtc altStep (T0, ∅) (T, seen) ∧ dom T0 ⊆ seen.

(** [registerKeys]: [T] is a table the call may leave in [d.table]. The
    method [registerTerminfoKeys] is not among the sources and is a
    parameter: a relation between the table before and after it. *)
Definition registerKeys
    (registerTerminfoKeys : Table → Table → Prop) (flags : Z) (T : Table)
    : Prop :=
  ∃ T0 T1,
    tableBeforeAlt flags T0 ∧
    altKeys T0 T1 ∧
    (if has flags FlagNoTerminfo then T = T1 else registerTerminfoKeys T1 T).

(** ** The table as a function

    Every loop but the last inserts under keys that differ from entry to
    entry, so the order of the visits does not show; the functions below
    visit in the order of [map_to_list]. [altKeys_fn] is the run of the
    last loop that visits exactly the entries present at its start. *)
Definition range_fn `{Countable K} {V S : Type}
    (m : gmap K V) (body : K → V → S → S) (s : S) : S :=
  foldl (λ acc kv, body kv.1 kv.2 acc) s (map_to_list m).

Definition xtermKeys_fn (find sel : Key) (T : Table) (m : Mod) : Table :=
  let xtermMod := Itoa (m + 1) in
  let T1 := range_fn csiFuncKeys
      (λ k v t, <[X1B "[1;" +:+ xtermMod +:+ k := set_Mod v m]> t) T in
  let T2 := range_fn ss3FuncKeys
      (λ k v t, <[X1B "O" +:+ xtermMod +:+ k := set_Mod v m]> t) T1 in
  let T3 := range_fn (csiTildeKeys find sel)
      (λ k v t, <[X1B "[" +:+ k +:+ ";" +:+ xtermMod +:+ "~" := set_Mod v m]> t)
      T2 in
  range_fn modifyOtherKeys
      (λ k v t,
         let code := Itoa k in
         <[X1B "[27;" +:+ xtermMod +:+ ";" +:+ code +:+ "~" := set_Mod v m]> t)
      T3.

Definition tableBeforeAlt_with
    (xterm : bool) (nul tab enter esc sp del find sel : Key) : Table :=
  let T0 : Table :=
    list_to_map (table_literal nul tab enter esc sp del find sel) in
  let T1 := if xterm then foldl (xtermKeys_fn find sel) T0 modifiers else T0 in
  let T2 := range_fn (csiTildeKeys find sel) urxvtTilde
              (assign urxvt_arrow_keys T1) in
  assign urxvt_function_keys T2.

Definition tableBeforeAlt_fn (flags : Z) : Table :=
  tableBeforeAlt_with (negb (has flags FlagNoXTerm))
    (nul flags) (tab flags) (enter flags) (esc flags)
    (sp flags) (del flags) (find flags) (sel flags).

Definition altKeys_fn (T0 : Table) : Table :=
  foldl (λ t kv, <[X1B kv.1 := or_Mod kv.2 Alt]> t) T0 (map_to_list T0).

Definition registerKeys_fn (flags : Z) : Table :=
  altKeys_fn (tableBeforeAlt_fn flags).

(** ** Shapes of keys *)

Definition first_byte (s : string) : option Z :=
  match s with
  | EmptyString => None
  | String c _ => Some (byte_val c)
  end.

(** Non-empty, and the first byte is ESC, a C0 control byte or DEL. *)
Definition starts_with_control (s : string) : bool :=
  match first_byte s with
  | Some b => (b <=? 31) || (b =? 127)
  | None => false
  end.

(** As [starts_with_control], or the first byte is SP. *)
Definition starts_with_control_or_space (s : string) : bool :=
  match first_byte s with
  | Some b => (b <=? 32) || (b =? 127)
  | None => false
  end.

(** A key that starts with a control byte or SP, and that is not ESC
    followed by a string that starts so. No key of the table before the
    Alt loop is ESC followed by another key of any table. *)
Definition esc_free_key (s : string) : bool :=
  starts_with_control_or_space s &&
  match s with
  | String c r =>
      if decide (c = "027"%char) then negb (starts_with_control_or_space r)
      else true
  | EmptyString => true
  end.

(** Decimal digits only. *)
Fixpoint all_digits (s : string) : bool :=
  match s with
  | EmptyString => true
  | String c s' => is_digit c && all_digits s'
  end.

(** A number as [\d+] matches it: one decimal digit or more. *)
Definition is_number (s : string) : bool := nonempty s && all_digits s.

Definition bytes (s : string) : list ascii := String.list_ascii_of_string s.

(** The modifiers that the control-key state adds. *)
Definition cks_Mod (cks : Z) : Mod :=
  let m := 0 in
  let m :=
    if coninput.Contains cks
         (Z.lor coninput.LEFT_CTRL_PRESSED coninput.RIGHT_CTRL_PRESSED)
    then Z.lor m Ctrl else m in
  let m :=
    if coninput.Contains cks
         (Z.lor coninput.LEFT_ALT_PRESSED coninput.RIGHT_ALT_PRESSED)
    then Z.lor m Alt else m in
  if coninput.Contains cks coninput.SHIFT_PRESSED then Z.lor m Shift else m.

(** The invariant of the loop that registers the Alt combinations, for a
    loop started on [T0]: keys start with a control byte or SP; the
    entries of [T0] are as they were; a visited entry of [T0] has its Alt
    duplicate. *)
Record alt_inv (T0 : Table) (st : Table * gset string) : Prop := {
  inv_keys : ∀ k, is_Some (st.1 !! k) → starts_with_control_or_space k = true;
  inv_orig : ∀ k v, T0 !! k = Some v → st.1 !! k = Some v;
  inv_alt : ∀ k v,
    T0 !! k = Some v → k ∈ st.2 → st.1 !! X1B k = Some (or_Mod v Alt)
}.



(** The names of the buttons, as [mouse.String] prints them. *)
Definition mouseButtons : gmap Z string :=
  list_to_map [
    (MouseButtonNone, "none");
    (MouseButtonLeft, "left");
    (MouseButtonMiddle, "middle");
    (MouseButtonRight, "right");
    (MouseButtonWheelUp, "wheel up");
    (MouseButtonWheelDown, "wheel down");
    (MouseButtonWheelLeft, "wheel left");
    (MouseButtonWheelRight, "wheel right");
    (MouseButtonBackward, "backward");
    (MouseButtonForward, "forward");
    (MouseButton10, "button 10");
    (MouseButton11, "button 11")
  ].

(** A property of [parseMouseButton] that holds of every button code,
    checked on the codes of one byte. *)
Definition parseMouseButton_all (p : Z → Mod * MouseButton * bool * bool → bool)
    : bool :=
  forallb (λ b, p b (parseMouseButton b)) (seqZ 0 256).

(** The button codes on which the decomposition loses nothing: below
    0x80, and not a wheel code with the motion bit. *)
Definition plain_code (b : Z) : bool :=
  (0 <=? b) && (b <? 128) && negb (has b bitWheel && has b bitMotion).

Definition known_button_check
    (r : Z) (res : Mod * MouseButton * bool * bool) : bool :=
  let '(mod_, btn, _, _) := res in
  (0 <=? btn) && (btn <=? 11) &&
  (if mouseButtons !! btn is Some _ then true else false) &&
  (mod_ =? Z.land (Z.shiftr r 2) 7) && (Z.land mod_ Meta =? 0).

Definition plain_codes_injective : bool :=
  forallb (λ b1 : Z,
    forallb (λ b2 : Z,
      implb (plain_code b1 && plain_code b2 &&
             bool_decide (parseMouseButton b1 = parseMouseButton b2))
            (b1 =? b2))
      (seqZ 0 128))
    (seqZ 0 128).

(** The mouse record of a mouse event. *)
Definition mouse_of (e : Event) : option mouse :=
  match e with
  | MouseDownEvent m | MouseUpEvent m | MouseMoveEvent m => Some m
  | _ => None
  end.

(** [M] or [m], the final bytes of an SGR mouse sequence. *)
Definition is_final (c : ascii) : bool :=
  bool_decide (c = "M"%char) || bool_decide (c = "m"%char).

Fixpoint no_final (s : string) : bool :=
  match s with
  | EmptyString => true
  | String c s' => negb (is_final c) && no_final s'
  end.

(** The number that decimal digits write, continuing from [n]. *)
Fixpoint dec_value_from (n : Z) (s : string) : Z :=
  match s with
  | EmptyString => n
  | String c s' => dec_value_from (n * 10 + (byte_val c - 48)) s'
  end.

Definition dec_value (s : string) : Z := dec_value_from 0 s.

(** [strconv.Atoi] on a number: its value, or the largest [int]. *)
Definition saturated (s : string) : Z := Z.min (dec_value s) (2 ^ 63 - 1).

(** Modelled from the spec: the methods [IsCtrl], [IsAlt] and [IsShift]
    of [Mod] are not among the sources; each tests the bit of its
    modifier. *)
Definition IsCtrl (m : Mod) : bool := has m Ctrl.
Definition IsAlt (m : Mod) : bool := has m Alt.
Definition IsShift (m : Mod) : bool := has m Shift.

(** [mouse.String]. *)
Definition mouse_String (m : mouse) : string :=
  let s := "" in
  let s := if IsCtrl (MouseMod m) then s +:+ "ctrl+" else s in
  let s := if IsAlt (MouseMod m) then s +:+ "alt+" else s in
  let s := if IsShift (MouseMod m) then s +:+ "shift+" else s in
  match mouseButtons !! Button m with
  | None => s +:+ "unknown"
  | Some str => if bool_decide (str = "none") then s else s +:+ str
  end.

(** What [mouse.String] prints for the record decoded from a button
    code: the modifiers of bits 0x10, 0x08, 0x04 in the order ctrl, alt,
    shift, then the name of the button, nothing for the button None. *)
Definition decoded_name (r : Z) (btn : MouseButton) : string :=
  (if has r bitCtrl then "ctrl+" else "") +:+
  (if has r bitAlt then "alt+" else "") +:+
  (if has r bitShift then "shift+" else "") +:+
  match mouseButtons !! btn with
  | Some str => if bool_decide (str = "none") then "" else str
  | None => ""
  end.

Definition mouse_String_check
    (r : Z) (res : Mod * MouseButton * bool * bool) : bool :=
  let '(mod_, btn, _, _) := res in
  bool_decide
    (mouse_String {| X := 0; Y := 0; Button := btn; MouseMod := mod_ |}
     = decoded_name r btn) &&
  (if mouseButtons !! btn is Some _ then true else false).

(** [c.RGBA()] of package [image/color]: the channels on 16 bits. An
    8-bit channel is repeated in both bytes. *)
Definition Color_RGBA (c : Color) : Z * Z * Z * Z :=
  match c with
  | RGBA r g b a =>
      (Z.lor r (Z.shiftl r 8), Z.lor g (Z.shiftl g 8),
       Z.lor b (Z.shiftl b 8), Z.lor a (Z.shiftl a 8))
  | Gray16 y => (y, y, y, 0xffff)
  end.

Definition hex_char (d : Z) : ascii :=
  if d <? 10 then ascii_of_N (Z.to_N (48 + d))
  else ascii_of_N (Z.to_N (87 + d)).

Fixpoint hex_digits (fuel : nat) (n : Z) (acc : string) : string :=
  match fuel with
  | O => acc
  | S fuel' =>
      let acc' := String (hex_char (n mod 16)) acc in
      if n / 16 =? 0 then acc' else hex_digits fuel' (n / 16) acc'
  end.

(** [fmt.Sprintf("%02x", v)] for an unsigned 32-bit [v]: lower-case
    hexadecimal, at least two digits. *)
Definition Sprintf_02x (v : Z) : string :=
  let s := hex_digits 8 v "" in
  if (String.length s <? 2)%nat then String "0" s else s.

Definition colorToHex (c : Color) : string :=
  let '(r, g, b, _) := Color_RGBA c in
  let r := Z.shiftr r 8 in
  let g := Z.shiftr g 8 in
  let b := Z.shiftr b 8 in
  "#" +:+ Sprintf_02x r +:+ Sprintf_02x g +:+ Sprintf_02x b.

(** The checks on the two-digit form of a byte that the round trips
    use. *)
Definition byte_hex_check (v : Z) : bool :=
  let s := Sprintf_02x v in
  hex_component s && (hex_value s =? v) &&
  hex_component (s +:+ s) && (hex_value (s +:+ s) mod 256 =? v) &&
  (Z.shiftr (Z.lor v (Z.shiftl v 8)) 8 =? v).

Definition is_byte (v : Z) : bool := (0 <=? v) && (v <? 256).

(** The number of separators [/] of a string. *)
Fixpoint count_slash (s : string) : nat :=
  match s with
  | EmptyString => O
  | String c s' =>
      if decide (c = "/"%char) then S (count_slash s') else count_slash s'
  end.

(** The channel that [xParseColor] reads from a component of at most 8
    bytes: the low byte of its value, and 0 for a component that is
    empty or has a byte that is not a hexadecimal digit. *)
Definition channel (s : string) : Z :=
  if nonempty s && all_hex s then hex_value s mod 256 else 0.

(** The tests of [parseWin32InputKeyEvent] on the control-key state. *)
Definition ctrl_held (cks : Z) : bool :=
  coninput.Contains cks
    (Z.lor coninput.LEFT_CTRL_PRESSED coninput.RIGHT_CTRL_PRESSED).

Definition lock_on (cks : Z) : bool :=
  coninput.Contains cks
    (Z.lor (Z.lor coninput.NUMLOCK_ON coninput.CAPSLOCK_ON)
           coninput.SCROLLLOCK_ON).

(** One event, or for a repeat count above 1 the batch of that many
    copies. *)
Definition batch (repeatCount : Z) (e : Event) : Event :=
  if repeatCount <=? 1 then e
  else MultiEvent (replicate (Z.to_nat repeatCount) e).

(** The character of the event for a key that is not in [vkKeyEvent]:
    with Ctrl held, the letter that [vkCtrlRune] has for the control
    character, if any; without, the character of the record. *)
Definition unlisted_rune (cks r : Z) : Z :=
  if ctrl_held cks then match ctrlRune r with Some c => c | None => 0 end
  else r.

(** The entries that the loop over [d.table] can put in the table, for a
    loop started on [T0]: the entries of [T0], and for an entry that it
    can put, the entry under ESC and the key, with Alt added. *)
Inductive alt_entry (T0 : Table) : string → Key → Prop :=
  | alt_entry_start (k : string) (v : Key) :
      T0 !! k = Some v → alt_entry T0 k v
  | alt_entry_esc (k : string) (v : Key) :
      alt_entry T0 k v → alt_entry T0 (X1B k) (or_Mod v Alt).

(** The keys of the four XTerm families, for the modifier parameter
    [xtermMod]. *)
Definition csiFunc_key (xtermMod k : string) : string :=
  X1B "[1;" +:+ xtermMod +:+ k.
Definition ss3Func_key (xtermMod k : string) : string :=
  X1B "O" +:+ xtermMod +:+ k.
Definition csiTilde_key (xtermMod k : string) : string :=
  X1B "[" +:+ k +:+ ";" +:+ xtermMod +:+ "~".
Definition modifyOther_key (xtermMod : string) (k : Z) : string :=
  X1B "[27;" +:+ xtermMod +:+ ";" +:+ Itoa k +:+ "~".

Definition modifyOtherKeys_literal : list (Z * Key) :=
  [ (ansi.BS, KD KeyBackspace 0 0);
    (ansi.HT, KD KeyTab 0 0);
    (ansi.CR, KD KeyEnter 0 0);
    (ansi.ESC, KD KeyEscape 0 0);
    (ansi.DEL, KD KeyBackspace 0 0) ].

(** A family of a table: for every modifier [m] from 1 to 15 and every
    entry [k → v] of the family, the key of [m+1] and [k] has the event
    [v] with modifiers [m]. *)
Definition family_present {A : Type} (T : Table)
    (key : string → A → string) (entries : list (A * Key)) : bool :=
  forallb (λ m,
    forallb (λ kv,
      bool_decide (T !! key (Itoa (m + 1)) kv.1 = Some (set_Mod kv.2 m)))
      entries)
    (seqZ 1 15).

(** No key of a family is in the table. *)
Definition family_absent {A : Type} (T : Table)
    (key : string → A → string) (entries : list (A * Key)) : bool :=
  forallb (λ m,
    forallb (λ kv,
      if T !! key (Itoa (m + 1)) kv.1 is None then true else false)
      entries)
    (seqZ 1 15).

(** The URxvt entries of a table: every key [k → v] of the tilde family
    has its three suffixed forms. *)
Definition urxvt_present (T : Table) (entries : list (string * Key)) : bool :=
  forallb (λ kv,
    bool_decide (T !! (X1B "[" +:+ kv.1 +:+ "$") = Some (set_Mod kv.2 Shift)) &&
    bool_decide (T !! (X1B "[" +:+ kv.1 +:+ "^") = Some (set_Mod kv.2 Ctrl)) &&
    bool_decide (T !! (X1B "[" +:+ kv.1 +:+ "@")
                 = Some (set_Mod kv.2 (Z.lor Shift Ctrl))))
    entries.




(** A second run of [registerKeys] with the terminfo phase switched off:
    the last loop also visits the entry of ESC NUL that it has created,
    and registers ESC ESC NUL. *)
Definition registerKeys_revisit : Table :=
  <[X1B (X1B (byte_string ansi.NUL))
      := or_Mod (KD KeySpace 0 (Z.lor Ctrl Alt)) Alt]>
    (registerKeys_fn FlagNoTerminfo).

(** The check that [Sprintf_02x] prints the two lower-case hexadecimal
    digits of a byte, read off the alphabet. *)
Definition lower_hex_check (v : Z) : bool :=
  bool_decide
    (Sprintf_02x v
     = String
         (default "0"%char
            (String.get (Z.to_nat (v / 16)) "0123456789abcdef"))
         (String
            (default "0"%char
               (String.get (Z.to_nat (v mod 16)) "0123456789abcdef"))
            "")).

(* ================================================================== *)
(** * Properties: mouse decoders *)

Lemma app_String (a : ascii) (s t : string) :
  String a s +:+ t = String a (s +:+ t).
Proof. reflexivity. Qed.

Lemma land_bitsMask_range (b : Z) : 0 ≤ Z.land b bitsMask ≤ 3.
Proof.
  unfold bitsMask. change 3 with (Z.ones 2) at 1 2.
  rewrite Z.land_ones by lia.
  pose proof (Z.mod_pos_bound b (2 ^ 2)). change (Z.ones 2) with 3. lia.
Qed.



(** C8. [parseX10MouseEvent] takes 32 off the button byte only when the
    byte is at least 32 and decomposes a smaller byte as it is; it takes
    33 off the two coordinate bytes without a lower bound, so that a
    coordinate is negative exactly when its byte is below 33. *)
Theorem parseX10MouseEvent_offsets
    (p0 p1 p2 v0 v1 v2 : ascii) (rest behind : list ascii) :
  let b := byte_val v0 in
  let '(mod_, btn, isRelease, isMotion) :=
    parseMouseButton (if 32 <=? b then b - 32 else b) in
  let m := {| X := byte_val v1 - 33; Y := byte_val v2 - 33;
              Button := btn; MouseMod := mod_ |} in
  parseX10MouseEvent
    {| elems := p0 :: p1 :: p2 :: v0 :: v1 :: v2 :: rest; spare := behind |}
    = Some (if isMotion then MouseMoveEvent m
            else if isRelease then MouseUpEvent m
            else MouseDownEvent m) ∧
  (X m < 0 ↔ byte_val v1 < 33) ∧
  (Y m < 0 ↔ byte_val v2 < 33).
Proof.
  unfold parseX10MouseEvent, x10MouseByteOffset.
  change (slice_expr _ 3 6)
    with (Some {| elems := [v0; v1; v2]; spare := rest ++ behind |}).
  cbn [mbind option_bind slice_index elems lookup list_lookup].
  cbv zeta.
  destruct (parseMouseButton _) as [[[mod_ btn] isRelease] isMotion].
  cbn [mbind option_bind slice_index elems lookup list_lookup X Y].
  replace (byte_val v1 - 32 - 1) with (byte_val v1 - 33) by lia.
  replace (byte_val v2 - 32 - 1) with (byte_val v2 - 33) by lia.
  split; [|lia].
  by destruct isMotion, isRelease.
Qed.

Example parseX10MouseEvent_low_bytes :
  parseX10MouseEvent
    {| elems := bytes (X1B "[M" +:+ byte_string 3 +:+ "  "); spare := [] |}
  = Some (MouseUpEvent {| X := -1; Y := -1; Button := MouseButtonNone;
                          MouseMod := 0 |}).
Proof. reflexivity. Qed.

(** A slice of five bytes whose backing array goes on: [buf[3:6]] is
    within the capacity, and the event is decoded with the byte behind
    the end of the slice as its row. *)
Example parseX10MouseEvent_spare_capacity :
  parseX10MouseEvent {| elems := bytes (X1B "[M !"); spare := bytes "#" |}
  = Some (MouseDownEvent {| X := 0; Y := 2; Button := MouseButtonLeft;
                            MouseMod := 0 |}).
Proof. reflexivity. Qed.

Lemma span_digits_app (d : string) (c : ascii) (r : string) :
  all_digits d = true →
  is_digit c = false →
  span_digits (d +:+ String c r) = (d, String c r).
Proof.
  intros Hd Hc. induction d as [|a d IH].
  - simpl. change ("" +:+ String c r) with (String c r). simpl. by rewrite Hc.
  - simpl in Hd. apply andb_true_iff in Hd as [Ha Hd].
    rewrite app_String. simpl. rewrite Ha, (IH Hd). reflexivity.
Qed.

Lemma expect_String (c : ascii) (s : string) : expect c (String c s) = Some s.
Proof. unfold expect. by rewrite decide_True. Qed.

Lemma mouseSGR_match_here_wellformed (db dx dy : string) (t : ascii) :
  is_number db = true → is_number dx = true → is_number dy = true →
  t = "M"%char ∨ t = "m"%char →
  mouseSGR_match_here (db +:+ ";" +:+ dx +:+ ";" +:+ dy +:+ String t "")
  = Some [db +:+ ";" +:+ dx +:+ ";" +:+ dy +:+ String t ""; db; dx; dy;
          String t ""].
Proof.
  unfold is_number.
  intros [Hnb Hb]%andb_true_iff [Hnx Hx]%andb_true_iff
         [Hny Hy]%andb_true_iff Ht.
  assert (is_digit t = false) as Hdt by (destruct Ht as [-> | ->]; done).
  assert (bool_decide (t = "M"%char) || bool_decide (t = "m"%char) = true)
    as Hmt by (destruct Ht as [-> | ->]; done).
  unfold mouseSGR_match_here.
  change (";" +:+ dx +:+ ";" +:+ dy +:+ String t "")
    with (String ";" (dx +:+ String ";" (dy +:+ String t ""))).
  rewrite (span_digits_app db), Hnb, expect_String by done.
  rewrite (span_digits_app dx), Hnx, expect_String by done.
  rewrite (span_digits_app dy), Hny by done.
  cbv beta iota zeta. simpl negb. cbv iota. by rewrite Hmt.
Qed.

Lemma parseSGRMouseEvent_wellformed (db dx dy : string) (t : ascii) :
  is_number db = true → is_number dx = true → is_number dy = true →
  t = "M"%char ∨ t = "m"%char →
  parseSGRMouseEvent
    (bytes (X1B ("[<" +:+ db +:+ ";" +:+ dx +:+ ";" +:+ dy +:+ String t "")))
  = let '(mod_, btn, _, isMotion) := parseMouseButton (Atoi db) in
    let m := {| X := Atoi dx - 1; Y := Atoi dy - 1;
                Button := btn; MouseMod := mod_ |} in
    if negb isMotion && negb (isWheel btn) && bool_decide (t = "m"%char)
    then Some (MouseUpEvent m)
    else if isMotion then Some (MouseMoveEvent m)
    else Some (MouseDownEvent m).
Proof.
  intros Hb Hx Hy Ht. unfold parseSGRMouseEvent, bytes, X1B.
  change ("[<" +:+ ?s) with (String "["%char (String "<"%char s)).
  cbn [String.list_ascii_of_string length Nat.ltb Nat.leb drop].
  rewrite drop_0, String.string_of_list_ascii_of_string.
  destruct db as [|c db']; [done|].
  rewrite !app_String. unfold mouseSGRRegex_FindStringSubmatch.
  fold mouseSGRRegex_FindStringSubmatch. rewrite <- !app_String.
  rewrite mouseSGR_match_here_wellformed by done.
  destruct (parseMouseButton _) as [[[mod_ btn] isRelease] isMotion].
  assert (bool_decide (String t "" = "m") = bool_decide (t = "m"%char)) as ->.
  { apply bool_decide_ext. split; [by intros [= ->] | by intros ->]. }
  reflexivity.
Qed.

(** C3, as the code has it. For an SGR mouse sequence
    [ESC [ < b ; x ; y] ended by [M] or [m], when the button code has the
    wheel bit 0x40 set and the additional-button bit 0x80 clear, the
    result is a MouseDown event on a wheel button, whichever the final
    byte. *)
Theorem parseSGRMouseEvent_wheel_is_down (db dx dy : string) (t : ascii) :
  is_number db = true → is_number dx = true → is_number dy = true →
  t = "M"%char ∨ t = "m"%char →
  has (Atoi db) bitWheel = true →
  has (Atoi db) bitAdd = false →
  ∃ mod_,
    parseSGRMouseEvent
      (bytes (X1B ("[<" +:+ db +:+ ";" +:+ dx +:+ ";" +:+ dy +:+ String t "")))
    = Some (MouseDownEvent
              {| X := Atoi dx - 1; Y := Atoi dy - 1;
                 Button := MouseButtonWheelUp + Z.land (Atoi db) bitsMask;
                 MouseMod := mod_ |}) ∧
    isWheel (MouseButtonWheelUp + Z.land (Atoi db) bitsMask) = true.
Proof.
  intros Hb Hx Hy Ht Hwheel Hadd.
  rewrite parseSGRMouseEvent_wellformed by done.
  unfold parseMouseButton. rewrite Hadd, Hwheel.
  pose proof (land_bitsMask_range (Atoi db)) as Hr.
  assert (isWheel (MouseButtonWheelUp + Z.land (Atoi db) bitsMask) = true)
    as Hw.
  { unfold isWheel, MouseButtonWheelUp, MouseButtonWheelRight.
    apply andb_true_iff. split; [apply Z.leb_le | apply Z.leb_le]; lia. }
  rewrite Hw, andb_false_r. simpl. rewrite andb_false_r. eauto.
Qed.

Lemma parseSGRMouseEvent_wheel_is_down_witness :
  ∃ mod_,
    parseSGRMouseEvent
      (bytes (X1B ("[<" +:+ "64" +:+ ";" +:+ "10" +:+ ";" +:+ "5"
                   +:+ String "m" "")))
    = Some (MouseDownEvent
              {| X := Atoi "10" - 1; Y := Atoi "5" - 1;
                 Button := MouseButtonWheelUp + Z.land (Atoi "64") bitsMask;
                 MouseMod := mod_ |}) ∧
    isWheel (MouseButtonWheelUp + Z.land (Atoi "64") bitsMask) = true.
Proof.
  apply (parseSGRMouseEvent_wheel_is_down "64" "10" "5" "m");
    solve [reflexivity | by right].
Defined.

(** C3 fails as stated: button code 192 has the wheel bit set (and the
    additional-button bit), and the sequence ended by [m] is a MouseUp. *)
Lemma parseSGRMouseEvent_wheel_bit_release :
  has (Atoi "192") bitWheel = true ∧
  parseSGRMouseEvent (bytes (X1B "[<192;1;1m"))
  = Some (MouseUpEvent {| X := 0; Y := 0; Button := MouseButtonBackward;
                          MouseMod := 0 |}).
Proof. split; reflexivity. Qed.

(* ================================================================== *)
(** * Properties: XTerm modifyOtherKeys *)

(** C9. [parseXTermModifyOtherKeys] returns a result exactly when
    [params] has three groups or more of which the second and the third
    are not empty (otherwise an index expression panics). Then the result
    is a key-down event whose modifiers are [Mod(params[1][0] - 1)], that
    is [params[1][0] - 1] for a parameter from 1 to 65536, and for a code
    [rune(params[2][0])] that is not in the [modifyOtherKeys] table the
    event carries no symbol and that code as its character. *)
Theorem parseXTermModifyOtherKeys_spec (params : list (list Z)) :
  match params with
  | g0 :: (p1 :: g1) :: (p2 :: g2) :: rest =>
      ∃ k,
        parseXTermModifyOtherKeys params = Some (KeyDownEvent k) ∧
        KeyMod k = to_Mod (wrap_uint64 (p1 - 1)) ∧
        (1 ≤ p1 ≤ 2 ^ 16 → KeyMod k = p1 - 1) ∧
        (modifyOtherKeys !! to_rune p2 = None →
           Sym k = KeyNone ∧ Rune k = to_rune p2) ∧
        (0 ≤ p2 < 2 ^ 31 → to_rune p2 = p2)
  | _ => parseXTermModifyOtherKeys params = None
  end.
Proof.
  destruct params as [|g0 [|[|p1 g1] [|[|p2 g2] rest]]]; try reflexivity.
  unfold parseXTermModifyOtherKeys. cbn [param0 lookup list_lookup].
  assert (1 ≤ p1 ≤ 2 ^ 16 → to_Mod (wrap_uint64 (p1 - 1)) = p1 - 1) as Hmod.
  { intros Hp. unfold to_Mod, wrap_uint64.
    rewrite (Z.mod_small (p1 - 1) (2 ^ 64)) by lia.
    apply Z.mod_small. lia. }
  assert (0 ≤ p2 < 2 ^ 31 → to_rune p2 = p2) as Hrune.
  { intros Hp. unfold to_rune. rewrite Z.mod_small by lia. lia. }
  destruct (modifyOtherKeys !! to_rune p2) as [k|] eqn:Hk.
  - exists (set_Mod k (to_Mod (wrap_uint64 (p1 - 1)))).
    repeat split; try done.
  - exists (KD KeyNone (to_rune p2) (to_Mod (wrap_uint64 (p1 - 1)))).
    repeat split; try done.
Qed.

Example parseXTermModifyOtherKeys_enter :
  parseXTermModifyOtherKeys [[27]; [6]; [13]]
  = Some (KeyDownEvent (KD KeyEnter 0 (Z.lor Shift Ctrl))).
Proof. reflexivity. Qed.

Example parseXTermModifyOtherKeys_short :
  parseXTermModifyOtherKeys [[27]; [6]] = None.
Proof. reflexivity. Qed.

(* ================================================================== *)
(** * Properties: Windows console key records *)

(** A property of the entries of a map, checked on its list of entries. *)
Lemma map_forallb_lookup `{Countable K} {V : Type}
    (m : gmap K V) (p : K → V → bool) :
  forallb (λ kv, p kv.1 kv.2) (map_to_list m) = true →
  ∀ k v, m !! k = Some v → p k v = true.
Proof.
  intros Hall k v Hkv. rewrite forallb_forall in Hall.
  apply (Hall (k, v)). apply list_elem_of_In. by apply elem_of_map_to_list.
Qed.

(** What the code does on a repeated record of a key of the table: the
    batch has [repeatCount] events with the symbol and the modifiers, and
    the repeat mark is set on a release and not on a press. *)
Lemma parseWin32InputKeyEvent_repeat
    (vkc sc r : Z) (keyDown : bool) (cks repeatCount : Z) (k0 : Key) :
  vkKeyEvent !! vkc = Some k0 →
  1 < repeatCount →
  parseWin32InputKeyEvent vkc sc r keyDown cks repeatCount
  = MultiEvent
      (replicate (Z.to_nat repeatCount)
         (if keyDown
          then KeyDownEvent (KD (Sym k0) (Rune k0) (cks_Mod cks))
          else KeyUpEvent {| Sym := Sym k0; Rune := Rune k0;
                             KeyMod := cks_Mod cks; IsRepeat := true |})).
Proof.
  intros Hk Hn.
  assert (KeyMod k0 = 0 ∧ IsRepeat k0 = false ∧
          ((Rune k0 =? 0) && bool_decide (Sym k0 = KeyNone)) = false)
    as (Hmod & Hrep & Hnz).
  { pose proof (map_forallb_lookup vkKeyEvent
      (λ _ k, ((KeyMod k =? 0) && negb (IsRepeat k)) &&
              negb ((Rune k =? 0) && bool_decide (Sym k = KeyNone)))
      eq_refl vkc k0 Hk) as Hp.
    simpl in Hp. apply andb_true_iff in Hp as [Hp Hp3].
    apply andb_true_iff in Hp as [Hp1 Hp2].
    apply Z.eqb_eq in Hp1. apply negb_true_iff in Hp2, Hp3. done. }
  unfold parseWin32InputKeyEvent, cks_Mod. rewrite Hk. cbn [negb andb].
  destruct k0 as [s ru m rp]. simpl in Hmod, Hrep, Hnz. subst m rp.
  assert ((repeatCount <=? 1) = false) as -> by (apply Z.leb_gt; lia).
  assert ((1 <? repeatCount) = true) as -> by (apply Z.ltb_lt; lia).
  destruct (coninput.Contains cks (Z.lor coninput.LEFT_CTRL_PRESSED _)),
    (coninput.Contains cks (Z.lor coninput.LEFT_ALT_PRESSED _)),
    (coninput.Contains cks coninput.SHIFT_PRESSED);
    cbn [or_Mod set_Mod set_IsRepeat Sym Rune KeyMod IsRepeat];
    rewrite <- andb_assoc, Hnz, andb_false_r; by destruct keyDown.
Qed.

(** C2 at the record of the spec's scenario: Enter with Ctrl held,
    pressed, repeat count 3. The batch has three KeyDown events for
    Enter with Ctrl, and their repeat mark is not set. *)
Theorem parseWin32InputKeyEvent_press_repeat_unmarked :
  parseWin32InputKeyEvent coninput.VK_RETURN 0 13 true
    coninput.LEFT_CTRL_PRESSED 3
  = MultiEvent
      (replicate 3
         (KeyDownEvent {| Sym := KeyEnter; Rune := 0; KeyMod := Ctrl;
                          IsRepeat := false |})).
Proof. reflexivity. Qed.

(** The same record as a release carries the repeat mark. *)
Example parseWin32InputKeyEvent_release_repeat_marked :
  parseWin32InputKeyEvent coninput.VK_RETURN 0 13 false
    coninput.LEFT_CTRL_PRESSED 3
  = MultiEvent
      (replicate 3
         (KeyUpEvent {| Sym := KeyEnter; Rune := 0; KeyMod := Ctrl;
                        IsRepeat := true |})).
Proof. reflexivity. Qed.

(* ================================================================== *)
(** * Properties: colour replies *)

Lemma hex_value_from_bounds (s : string) (n : Z) :
  all_hex s = true → 0 ≤ n →
  n ≤ hex_value_from n s < (n + 1) * 16 ^ Z.of_nat (String.length s).
Proof.
  revert n. induction s as [|c s IH]; intros n Hs Hn.
  - simpl. lia.
  - cbn [all_hex] in Hs. apply andb_true_iff in Hs as [Hc Hs].
    unfold is_hex_digit in Hc.
    destruct (digit_of c) as [d|] eqn:Hd; [|done]. apply Z.ltb_lt in Hc.
    assert (0 ≤ d).
    { unfold digit_of in Hd. repeat case_match; simplify_eq; lia. }
    cbn [hex_value_from String.length]. rewrite Hd.
    specialize (IH (n * 16 + d) Hs ltac:(lia)).
    rewrite Nat2Z.inj_succ, Z.pow_succ_r by lia.
    split; [lia|].
    assert (0 < 16 ^ Z.of_nat (String.length s)) as Hpos
      by (apply Z.pow_pos_nonneg; lia).
    assert ((n * 16 + d + 1) * 16 ^ Z.of_nat (String.length s)
            ≤ ((n + 1) * 16) * 16 ^ Z.of_nat (String.length s))
      by (apply Z.mul_le_mono_nonneg_r; lia).
    lia.
Qed.

Lemma ParseUint_loop_hex (maxVal : Z) (s : string) (n : Z) :
  all_hex s = true → 0 ≤ n → hex_value_from n s ≤ maxVal →
  ParseUint_loop 16 maxVal s n = (hex_value_from n s, true).
Proof.
  revert n. induction s as [|c s IH]; intros n Hs Hn Hmax; [done|].
  pose proof (hex_value_from_bounds _ n Hs Hn) as Hb.
  cbn [all_hex] in Hs. apply andb_true_iff in Hs as [Hc Hs].
  unfold is_hex_digit in Hc.
  destruct (digit_of c) as [d|] eqn:Hd; [|done]. apply Z.ltb_lt in Hc.
  assert (0 ≤ d).
  { unfold digit_of in Hd. repeat case_match; simplify_eq; lia. }
  cbn [hex_value_from ParseUint_loop] in *. rewrite Hd in *.
  pose proof (hex_value_from_bounds _ (n * 16 + d) Hs ltac:(lia)) as Hb'.
  assert ((16 <=? d) = false) as -> by (apply Z.leb_gt; lia).
  assert ((maxVal <? n * 16 + d) = false) as -> by (apply Z.ltb_ge; lia).
  apply IH; [done | lia | done].
Qed.

(** [ParseUint] on a colour component: its value, below 2^16. *)
Lemma ParseUint_hex_component (s : string) :
  hex_component s = true →
  ParseUint s 16 32 = (hex_value s, true) ∧ 0 ≤ hex_value s < 2 ^ 16.
Proof.
  unfold hex_component.
  intros [[Hs Hlo%Nat.leb_le]%andb_true_iff Hhi%Nat.leb_le]%andb_true_iff.
  pose proof (hex_value_from_bounds s 0 Hs ltac:(lia)) as Hb.
  fold (hex_value s) in Hb.
  assert (16 ^ Z.of_nat (String.length s) ≤ 16 ^ 4)
    by (apply Z.pow_le_mono_r; lia).
  assert (0 ≤ hex_value s < 2 ^ 16) as Hr by lia.
  split; [|done].
  destruct s as [|c s]; [simpl in Hlo; lia|].
  unfold ParseUint. apply ParseUint_loop_hex; [done | lia |].
  fold (hex_value (String c s)). lia.
Qed.

Lemma Split_app_sep (a r : string) :
  all_hex a = true →
  Split (a +:+ "/" +:+ r) "/" = a :: Split r "/".
Proof.
  intros Ha. change ("/" +:+ r) with (String "/"%char r).
  induction a as [|c a IH]; [done|].
  cbn [all_hex] in Ha. apply andb_true_iff in Ha as [Hc Ha].
  rewrite app_String. cbn [Split]. rewrite (IH Ha).
  rewrite decide_False; [done|]. by intros ->.
Qed.

Lemma Split_no_sep (a : string) : all_hex a = true → Split a "/" = [a].
Proof.
  intros Ha. induction a as [|c a IH]; [done|].
  cbn [all_hex] in Ha. apply andb_true_iff in Ha as [Hc Ha].
  cbn [Split]. rewrite (IH Ha).
  rewrite decide_False; [done|]. by intros ->.
Qed.

Lemma hex_component_all_hex (s : string) :
  hex_component s = true → all_hex s = true.
Proof.
  unfold hex_component. by intros [[? _]%andb_true_iff _]%andb_true_iff.
Qed.

(** What the code does on the well-formed colour strings: each channel
    is the component modulo 256, its least significant 8 bits. *)
Lemma xParseColor_wellformed (r g b a : string) :
  hex_component r = true → hex_component g = true →
  hex_component b = true → hex_component a = true →
  xParseColor ("rgb:" +:+ r +:+ "/" +:+ g +:+ "/" +:+ b)
  = RGBA (hex_value r mod 256) (hex_value g mod 256) (hex_value b mod 256)
         255 ∧
  xParseColor ("rgba:" +:+ r +:+ "/" +:+ g +:+ "/" +:+ b +:+ "/" +:+ a)
  = RGBA (hex_value r mod 256) (hex_value g mod 256) (hex_value b mod 256)
         (hex_value a mod 256).
Proof.
  intros Hr Hg Hb Ha.
  pose proof (hex_component_all_hex _ Hr).
  pose proof (hex_component_all_hex _ Hg).
  pose proof (hex_component_all_hex _ Hb).
  pose proof (hex_component_all_hex _ Ha).
  apply ParseUint_hex_component in Hr as [Hr _], Hg as [Hg _],
    Hb as [Hb _], Ha as [Ha _].
  unfold xParseColor, to_uint8. split.
  - change ("rgb:" +:+ ?s)
      with (String "r" (String "g" (String "b" (String ":" s)))).
    cbn [HasPrefix string_drop]. rewrite !decide_True by done.
    rewrite !Split_app_sep, Split_no_sep by done.
    by rewrite Hr, Hg, Hb.
  - change ("rgba:" +:+ ?s)
      with (String "r" (String "g" (String "b" (String "a" (String ":" s))))).
    cbn [HasPrefix string_drop]. rewrite !decide_True by done.
    rewrite decide_False by done. rewrite !decide_True by done.
    rewrite !Split_app_sep, Split_no_sep by done.
    by rewrite Hr, Hg, Hb, Ha.
Qed.

(** The documented rule gives the same channel for a component of one or
    two digits, and the high byte for a component of four. *)
Lemma msb8_low_byte (s : string) :
  hex_component s = true →
  (String.length s ≤ 2)%nat →
  msb8 (String.length s) (hex_value s) = hex_value s mod 256.
Proof.
  intros Hs Hlen. unfold msb8.
  assert ((String.length s <=? 2)%nat = true) as -> by by apply Nat.leb_le.
  pose proof (hex_value_from_bounds s 0 (hex_component_all_hex _ Hs)
                ltac:(lia)) as Hb.
  fold (hex_value s) in Hb.
  assert (16 ^ Z.of_nat (String.length s) ≤ 16 ^ 2)
    by (apply Z.pow_le_mono_r; lia).
  symmetry. apply Z.mod_small. lia.
Qed.

(** C4 at a reply with four-digit components: each channel is the low
    byte of its component, not the high byte. *)
Theorem xParseColor_rgb_low_byte :
  xParseColor "rgb:1234/5678/9abc" = RGBA 0x34 0x78 0xbc 255 ∧
  RGBA (msb8 4 0x1234) (msb8 4 0x5678) (msb8 4 0x9abc) 255
    = RGBA 0x12 0x56 0x9a 255 ∧
  xParseColor "rgba:1234/5678/9abc/def0" = RGBA 0x34 0x78 0xbc 0xf0 ∧
  msb8 4 0xdef0 = 0xde.
Proof. repeat split; reflexivity. Qed.

(** Where the two bytes of every component agree, as in the replies of
    the spec's scenario, the low byte is the high byte. *)
Example xParseColor_rgb_red :
  xParseColor "rgb:ffff/0000/0000" = RGBA 255 0 0 255.
Proof. reflexivity. Qed.

Example xParseColor_malformed : xParseColor "rgb:ffff/0000" = Black.
Proof. reflexivity. Qed.

(* ================================================================== *)
(** * Properties: key table construction *)

(** ** Strings *)

Lemma list_ascii_of_string_app (s t : string) :
  String.list_ascii_of_string (s +:+ t)
  = String.list_ascii_of_string s ++ String.list_ascii_of_string t.
Proof.
  induction s as [|a s IH]; [done|].
  rewrite app_String. simpl. by rewrite IH.
Qed.

Lemma list_ascii_of_string_inj (s t : string) :
  String.list_ascii_of_string s = String.list_ascii_of_string t → s = t.
Proof.
  intros Heq.
  rewrite <- (String.string_of_list_ascii_of_string s),
          <- (String.string_of_list_ascii_of_string t).
  by rewrite Heq.
Qed.

Lemma length_list_ascii_of_string (s : string) :
  length (String.list_ascii_of_string s) = String.length s.
Proof. induction s as [|a s IH]; [done|]. simpl. by rewrite IH. Qed.

(** Two strings with suffixes of one length: equal wholes have equal
    parts. *)
Lemma string_app_inj_suffix (s1 s2 t1 t2 : string) :
  String.length t1 = String.length t2 →
  s1 +:+ t1 = s2 +:+ t2 → s1 = s2 ∧ t1 = t2.
Proof.
  intros Hlen Heq.
  apply (f_equal String.list_ascii_of_string) in Heq.
  rewrite !list_ascii_of_string_app in Heq.
  apply app_inj_2 in Heq as [H1 H2].
  - split; by apply list_ascii_of_string_inj.
  - by rewrite !length_list_ascii_of_string.
Qed.

Lemma string_app_inj_r (s1 s2 t : string) : s1 +:+ t = s2 +:+ t → s1 = s2.
Proof. intros Heq. by apply string_app_inj_suffix in Heq as [? _]. Qed.

(** ** Loops whose iterations commute *)

Lemma foldl_comm_perm {A B : Type} `{EqDecision A} (f : B → A → B)
    (l l' : list A) :
  l ≡ₚ l' →
  (∀ x y b, x ∈ l → y ∈ l → x ≠ y → f (f b x) y = f (f b y) x) →
  ∀ b, foldl f b l = foldl f b l'.
Proof.
  induction 1 as [|x l l' Hp IH|x y l|l l' l'' Hp1 IH1 Hp2 IH2];
    intros Hcomm b.
  - reflexivity.
  - simpl. apply IH. intros. apply Hcomm; set_solver.
  - simpl. destruct (decide (x = y)) as [->|Hne]; [done|].
    f_equal. apply Hcomm; set_solver.
  - rewrite IH1 by done. apply IH2.
    intros x y b' Hx Hy. apply Hcomm; by rewrite Hp1.
Qed.

Lemma range_fn_sound `{Countable K} {V S : Type}
    (m : gmap K V) (body : K → V → S → S) (s : S) :
  range m body s (range_fn m body s).
Proof. by exists (map_to_list m). Qed.

(** A loop over a map whose iterations commute has one result. *)
Lemma range_fn_unique `{Countable K} {V S : Type} `{EqDecision V}
    (m : gmap K V) (body : K → V → S → S) (s s' : S) :
  (∀ k1 v1 k2 v2 a,
     m !! k1 = Some v1 → m !! k2 = Some v2 → k1 ≠ k2 →
     body k2 v2 (body k1 v1 a) = body k1 v1 (body k2 v2 a)) →
  range m body s s' →
  s' = range_fn m body s.
Proof.
  intros Hcomm (l & Hperm & ->). unfold range_fn.
  apply foldl_comm_perm; [done|].
  intros [k1 v1] [k2 v2] b H1 H2 Hne. simpl.
  rewrite Hperm in H1, H2.
  apply elem_of_map_to_list in H1, H2.
  apply Hcomm; [done..|]. intros ->. congruence.
Qed.

Lemma for_slice_sound {A S : Type} (l : list A) (body : A → S → S → Prop)
    (f : S → A → S) (s : S) :
  (∀ a s, body a s (f s a)) → for_slice l body s (foldl f s l).
Proof.
  intros Hb. revert s. induction l as [|a l IH]; intros s; [done|].
  simpl. eauto.
Qed.

Lemma for_slice_unique {A S : Type} (l : list A) (body : A → S → S → Prop)
    (f : S → A → S) (s s' : S) :
  (∀ a s s', body a s s' → s' = f s a) →
  for_slice l body s s' → s' = foldl f s l.
Proof.
  intros Hb. revert s. induction l as [|a l IH]; intros s; [done|].
  simpl. intros (s1 & H1 & H2). apply Hb in H1 as ->. by apply IH.
Qed.

(** The keys of the XTerm loops differ from entry to entry. *)
Lemma modifyOtherKeys_codes (k : Z) (v : Key) :
  modifyOtherKeys !! k = Some v →
  k = 8 ∨ k = 9 ∨ k = 13 ∨ k = 27 ∨ k = 127.
Proof.
  intros Hk.
  pose proof (map_forallb_lookup modifyOtherKeys
    (λ k _, bool_decide (k ∈ [8; 9; 13; 27; 127])) eq_refl k v Hk) as Hp.
  apply bool_decide_eq_true in Hp.
  rewrite !elem_of_cons, elem_of_nil in Hp. tauto.
Qed.

Lemma Itoa_modifyOtherKeys_inj (k1 k2 : Z) (v1 v2 : Key) :
  modifyOtherKeys !! k1 = Some v1 → modifyOtherKeys !! k2 = Some v2 →
  Itoa k1 = Itoa k2 → k1 = k2.
Proof.
  intros H1%modifyOtherKeys_codes H2%modifyOtherKeys_codes.
  destruct H1 as [-> | [-> | [-> | [-> | ->]]]],
           H2 as [-> | [-> | [-> | [-> | ->]]]];
    vm_compute; congruence.
Qed.

Lemma xtermKeys_unique (find sel : Key) (m : Mod) (T T' : Table) :
  xtermKeys find sel m T T' → T' = xtermKeys_fn find sel T m.
Proof.
  unfold xtermKeys, xtermKeys_fn. cbv zeta.
  intros (T1 & T2 & T3 & H1 & H2 & H3 & H4).
  apply range_fn_unique in H1 as ->.
  2:{ intros k1 v1 k2 v2 a _ _ Hne. apply insert_insert_ne.
      unfold X1B. intros [= Heq]. by simplify_eq. }
  apply range_fn_unique in H2 as ->.
  2:{ intros k1 v1 k2 v2 a _ _ Hne. apply insert_insert_ne.
      unfold X1B. intros [= Heq]. by simplify_eq. }
  apply range_fn_unique in H3 as ->.
  2:{ intros k1 v1 k2 v2 a _ _ Hne. apply insert_insert_ne.
      unfold X1B. intros [= Heq]. simplify_eq.
      by apply string_app_inj_r in Heq. }
  apply range_fn_unique in H4 as ->; [done|].
  intros k1 v1 k2 v2 a Hk1 Hk2 Hne. apply insert_insert_ne.
  unfold X1B. intros [= Heq]. simplify_eq.
  change (";" +:+ ?s) with (String ";"%char s) in Heq. simplify_eq.
  apply string_app_inj_r in Heq.
  symmetry in Heq.
  by apply (Itoa_modifyOtherKeys_inj _ _ _ _ Hk1 Hk2) in Heq.
Qed.

Lemma xtermKeys_sound (find sel : Key) (m : Mod) (T : Table) :
  xtermKeys find sel m T (xtermKeys_fn find sel T m).
Proof.
  unfold xtermKeys, xtermKeys_fn. cbv zeta.
  eexists _, _, _. repeat split; apply range_fn_sound.
Qed.

(** The composite literals have no key twice (the compiler rejects a
    literal that has), so [list_to_map] keeps every entry. *)
Lemma literals_NoDup (nul tab enter esc sp del find sel : Key) :
  NoDup (table_literal nul tab enter esc sp del find sel).*1 ∧
  NoDup csiFuncKeys_literal.*1 ∧
  NoDup ss3FuncKeys_literal.*1 ∧
  NoDup (csiTildeKeys_literal find sel).*1.
Proof.
  repeat split; apply (bool_decide_unpack _); vm_compute; exact I.
Qed.

Lemma urxvtTilde_key_inj (k1 k2 : string) (c1 c2 : ascii) :
  X1B "[" +:+ k1 +:+ String c1 "" = X1B "[" +:+ k2 +:+ String c2 "" →
  k1 = k2.
Proof.
  unfold X1B. intros [= Heq]. simplify_eq.
  apply string_app_inj_suffix in Heq as [? _]; done.
Qed.

Lemma urxvtTilde_comm (k1 k2 : string) (v1 v2 : Key) (t : Table) :
  k1 ≠ k2 →
  urxvtTilde k2 v2 (urxvtTilde k1 v1 t) = urxvtTilde k1 v1 (urxvtTilde k2 v2 t).
Proof.
  intros Hne. unfold urxvtTilde. cbv zeta.
  apply map_eq. intros q. rewrite !lookup_insert.
  repeat case_decide; try reflexivity; exfalso;
    match goal with
    | H1 : X1B "[" +:+ k2 +:+ _ = q, H2 : X1B "[" +:+ k1 +:+ _ = q |- _ =>
        rewrite <- H1 in H2; apply urxvtTilde_key_inj in H2; congruence
    end.
Qed.

(** The table at the start of the last loop is a function of the flags. *)
Lemma tableBeforeAlt_unique (flags : Z) (T : Table) :
  tableBeforeAlt flags T → T = tableBeforeAlt_fn flags.
Proof.
  unfold tableBeforeAlt, tableBeforeAlt_fn, tableBeforeAlt_with. cbv zeta.
  intros (T1 & T2 & H1 & H2 & ->).
  apply range_fn_unique in H2 as ->.
  2:{ intros k1 v1 k2 v2 a _ _ Hne. by apply urxvtTilde_comm. }
  destruct (has flags FlagNoXTerm); cbn [negb].
  - subst T1. reflexivity.
  - apply (for_slice_unique _ _ (xtermKeys_fn (find flags) (sel flags)))
      in H1 as ->; [reflexivity|].
    intros m s s'. apply xtermKeys_unique.
Qed.

Lemma tableBeforeAlt_sound (flags : Z) :
  tableBeforeAlt flags (tableBeforeAlt_fn flags).
Proof.
  unfold tableBeforeAlt, tableBeforeAlt_fn, tableBeforeAlt_with. cbv zeta.
  eexists _, _. split; [|split; [apply range_fn_sound | reflexivity]].
  destruct (has flags FlagNoXTerm); cbn [negb]; [reflexivity|].
  apply for_slice_sound. intros m s. apply xtermKeys_sound.
Qed.

(** The flag-dependent events are values of the table, never keys:
    properties of its keys and of its other values are computed with
    these events left abstract. *)
Ltac forget_locals flags :=
  generalize (nul flags) (tab flags) (enter flags) (esc flags)
             (sp flags) (del flags) (find flags) (sel flags);
  intros.

Lemma tableBeforeAlt_esc_free (flags : Z) (k : string) :
  is_Some (tableBeforeAlt_fn flags !! k) → esc_free_key k = true.
Proof.
  intros [v Hk]. revert k v Hk.
  apply (map_forallb_lookup _ (λ k _, esc_free_key k)).
  unfold tableBeforeAlt_fn. forget_locals flags.
  destruct (negb (has flags FlagNoXTerm)); vm_compute; reflexivity.
Qed.

(** ** The loop that registers the Alt combinations *)

Lemma starts_with_control_or_space_X1B (k : string) :
  starts_with_control_or_space (X1B k) = true.
Proof. reflexivity. Qed.

Lemma esc_free_key_start (k : string) :
  esc_free_key k = true → starts_with_control_or_space k = true.
Proof. unfold esc_free_key. by intros [? _]%andb_true_iff. Qed.

Lemma esc_free_key_X1B (k : string) :
  esc_free_key (X1B k) = true → starts_with_control_or_space k = false.
Proof.
  unfold esc_free_key, X1B. intros [_ Hk]%andb_true_iff.
  rewrite decide_True in Hk by done. by apply negb_true_iff.
Qed.

Section alt_loop.
Variable T0 : Table.
Hypothesis T0_esc_free : ∀ k, is_Some (T0 !! k) → esc_free_key k = true.

Lemma alt_inv_init : alt_inv T0 (T0, ∅).
Proof.
  split; cbn [fst snd].
  - intros k Hk. by apply esc_free_key_start, T0_esc_free.
  - auto.
  - intros k v _ Hk. by apply not_elem_of_empty in Hk.
Qed.

Lemma alt_inv_step (st st' : Table * gset string) :
  alt_inv T0 st → altStep st st' → alt_inv T0 st'.
Proof.
  intros [Hkeys Horig Halt] Hstep.
  destruct Hstep as [T seen k v Hk Hnew]. cbn [fst snd] in *.
  assert (∀ k0 v0, T0 !! k0 = Some v0 → X1B k ≠ k0) as Hfresh.
  { intros k0 v0 Hk0 <-.
    assert (starts_with_control_or_space k = false) as Hc
      by (apply esc_free_key_X1B, T0_esc_free; eauto).
    rewrite Hkeys in Hc by eauto. discriminate. }
  split; cbn [fst snd].
  - intros k' [v' Hk']. rewrite lookup_insert in Hk'.
    case_decide as Hd.
    + subst k'. apply starts_with_control_or_space_X1B.
    + apply Hkeys. eauto.
  - intros k0 v0 Hk0. rewrite lookup_insert_ne by eauto. by apply Horig.
  - intros k0 v0 Hk0 Hin. rewrite lookup_insert. case_decide as Hd.
    + injection Hd as ->. apply Horig in Hk0. congruence.
    + apply Halt; [done|].
      apply elem_of_union in Hin as [Hin%elem_of_singleton | Hin];
        [congruence | done].
Qed.

Lemma alt_inv_reachable (st : Table * gset string) :
  rtc altStep (T0, ∅) st → alt_inv T0 st.
Proof.
  revert st. apply rtc_ind_r.
  - apply alt_inv_init.
  - intros y z _ Hstep Hy. by apply (alt_inv_step y).
Qed.

(** What every run of the loop leaves in the table. *)
Lemma altKeys_entries (T : Table) (k : string) (v : Key) :
  altKeys T0 T → T0 !! k = Some v →
  T !! X1B k = Some (or_Mod v Alt) ∧ T !! k = Some v.
Proof.
  intros (seen & Hrtc & Hall) Hk.
  apply alt_inv_reachable in Hrtc as [_ Horig Halt]. cbn [fst snd] in *.
  split; [|by apply Horig].
  apply Halt; [done|]. apply Hall, elem_of_dom. eauto.
Qed.

Lemma altKeys_keys (T : Table) (k : string) :
  altKeys T0 T → is_Some (T !! k) → starts_with_control_or_space k = true.
Proof.
  intros (seen & Hrtc & _).
  apply alt_inv_reachable in Hrtc as [Hkeys _ _]. apply Hkeys.
Qed.

(** A run that visits the entries of a list after the visits made so
    far. *)
Lemma altStep_visit_list (l : list (string * Key)) :
  ∀ (T : Table) (seen : gset string),
    rtc altStep (T0, ∅) (T, seen) →
    NoDup l.*1 →
    (∀ k v, (k, v) ∈ l → T0 !! k = Some v ∧ k ∉ seen) →
    rtc altStep (T0, ∅)
      (foldl (λ t kv, <[X1B kv.1 := or_Mod kv.2 Alt]> t) T l,
       list_to_set l.*1 ∪ seen).
Proof.
  induction l as [|[k v] l IH]; intros T seen Hrtc Hnd Hl.
  - cbn [foldl fmap list_fmap list_to_set]. by rewrite (left_id_L ∅ (∪)).
  - cbn [fmap list_fmap] in Hnd. apply NoDup_cons in Hnd as [Hk Hnd].
    destruct (Hl k v) as [Hk0 Hks]; [by left|].
    pose proof (alt_inv_reachable _ Hrtc) as [_ Horig _].
    cbn [fst snd] in Horig.
    assert (rtc altStep (T0, ∅)
              (<[X1B k := or_Mod v Alt]> T, {[k]} ∪ seen)) as Hrtc'.
    { eapply rtc_r; [exact Hrtc|]. constructor; [by apply Horig | done]. }
    specialize (IH _ _ Hrtc' Hnd).
    cbn [foldl fmap list_fmap list_to_set fst snd].
    replace ({[k]} ∪ list_to_set l.*1 ∪ seen)
      with (list_to_set l.*1 ∪ ({[k]} ∪ seen))
      by (rewrite (assoc_L (∪)); f_equal; apply (comm_L (∪))).
    apply IH. intros k' v' Hin.
    destruct (Hl k' v') as [Hk0' Hks']; [by right|]. split; [done|].
    intros [Heq%elem_of_singleton | ?]%elem_of_union; [|done].
    subst k'. apply Hk. apply list_elem_of_fmap. by exists (k, v').
Qed.

(** The run that visits exactly the entries present at the start. *)
Lemma altKeys_fn_run :
  rtc altStep (T0, ∅)
    (altKeys_fn T0, list_to_set (map_to_list T0).*1 ∪ ∅).
Proof.
  unfold altKeys_fn. apply altStep_visit_list.
  - apply rtc_refl.
  - apply NoDup_fst_map_to_list.
  - intros k v Hin%elem_of_map_to_list. split; [done|].
    apply not_elem_of_empty.
Qed.

Lemma altKeys_fn_sound : altKeys T0 (altKeys_fn T0).
Proof.
  eexists. split; [apply altKeys_fn_run|].
  intros k [v Hk]%elem_of_dom.
  apply elem_of_union_l, elem_of_list_to_set, list_elem_of_fmap.
  exists (k, v). split; [done|]. by apply elem_of_map_to_list.
Qed.
End alt_loop.

(** [registerKeys] returns: the table of [registerKeys_fn] is one that
    the loops can build, and the result when the terminfo phase is
    switched off. *)
Lemma registerKeys_fn_sound
    (registerTerminfoKeys : Table → Table → Prop) (flags : Z) (T : Table) :
  (if has flags FlagNoTerminfo then T = registerKeys_fn flags
   else registerTerminfoKeys (registerKeys_fn flags) T) →
  registerKeys registerTerminfoKeys flags T.
Proof.
  intros HT. exists (tableBeforeAlt_fn flags), (registerKeys_fn flags).
  split; [apply tableBeforeAlt_sound|]. split; [|exact HT].
  apply altKeys_fn_sound, tableBeforeAlt_esc_free.
Qed.

(** The parts of a result of [registerKeys] when the terminfo phase is
    switched off. *)
Lemma registerKeys_inv
    (registerTerminfoKeys : Table → Table → Prop) (flags : Z) (T : Table) :
  has flags FlagNoTerminfo = true →
  registerKeys registerTerminfoKeys flags T →
  altKeys (tableBeforeAlt_fn flags) T.
Proof.
  intros Hflag (T0 & T1 & H0 & H1 & H2). rewrite Hflag in H2. subst T1.
  by apply tableBeforeAlt_unique in H0 as ->.
Qed.

(** ** The claims about the table *)

(** C1, as the code has it. With the terminfo phase switched off, every
    key of the table that [registerKeys] builds is a non-empty byte
    string whose first byte is ESC or another C0 control byte
    (0x00-0x1f), SP (0x20), or DEL (0x7f). *)
Theorem registerKeys_keys_start
    (registerTerminfoKeys : Table → Table → Prop)
    (flags : Z) (T : Table) (k : string) :
  has flags FlagNoTerminfo = true →
  registerKeys registerTerminfoKeys flags T →
  is_Some (T !! k) →
  k ≠ "" ∧
  ∃ b, first_byte k = Some b ∧ (0 ≤ b ≤ 31 ∨ b = 32 ∨ b = 127).
Proof.
  intros Hflag Hreg Hk. apply registerKeys_inv in Hreg; [|done].
  apply (altKeys_keys _ (tableBeforeAlt_esc_free flags)) in Hk; [|done].
  unfold starts_with_control_or_space in Hk.
  destruct k as [|c k]; [done|]. split; [done|].
  cbn [first_byte] in *. exists (byte_val c). split; [done|].
  assert (0 ≤ byte_val c) by (unfold byte_val; lia).
  apply orb_true_iff in Hk as [Hk%Z.leb_le | Hk%Z.eqb_eq]; lia.
Qed.

Lemma registerKeys_keys_start_witness :
  X1B "[A" ≠ "" ∧
  ∃ b, first_byte (X1B "[A") = Some b ∧ (0 ≤ b ≤ 31 ∨ b = 32 ∨ b = 127).
Proof.
  apply (registerKeys_keys_start (λ _ _, False) FlagNoTerminfo
           (registerKeys_fn FlagNoTerminfo) (X1B "[A")).
  - reflexivity.
  - apply registerKeys_fn_sound. reflexivity.
  - exists (KD KeyUp 0 0). vm_compute. reflexivity.
Defined.

(** C1 fails as stated: the table has the key SP, whose first byte 0x20
    is not ESC, a C0 control byte or DEL. *)
Lemma registerKeys_space_key :
  ∃ T,
    registerKeys (λ _ _, False) FlagNoTerminfo T ∧
    is_Some (T !! " ") ∧
    first_byte " " = Some 0x20 ∧
    starts_with_control " " = false.
Proof.
  exists (registerKeys_fn FlagNoTerminfo). split.
  - apply registerKeys_fn_sound. reflexivity.
  - split; [|split; reflexivity].
    exists (KD KeySpace (rune " ") 0). vm_compute. reflexivity.
Qed.

(** [v.Mod |= Alt] sets bit 1 of the modifiers and leaves the others. *)
Lemma or_Mod_Alt_bits (ev : Key) :
  Z.land (KeyMod (or_Mod ev Alt)) Alt = Alt ∧
  Z.testbit (KeyMod (or_Mod ev Alt)) 1 = true ∧
  (∀ i, i ≠ 1 →
     Z.testbit (KeyMod (or_Mod ev Alt)) i = Z.testbit (KeyMod ev) i).
Proof.
  unfold or_Mod, set_Mod, Alt. cbn [KeyMod]. split; [|split].
  - apply Z.bits_inj'. intros i Hi.
    rewrite Z.land_spec, Z.lor_spec.
    destruct (Z.testbit 2 i); [by rewrite orb_true_r | by rewrite andb_false_r].
  - rewrite Z.lor_spec. apply orb_true_r.
  - intros i Hi. rewrite Z.lor_spec.
    change 2 with (2 ^ 1). rewrite Z.pow2_bits_eqb by lia.
    destruct (Z.eqb_spec 1 i); [lia|]. apply orb_false_r.
Qed.

(** C5. With the terminfo phase switched off, for every entry
    [seq → ev] of the table at the start of the Alt-duplication loop, the
    table that [registerKeys] builds maps ESC followed by [seq] to [ev]
    with Alt added to its modifiers (the same symbol, character and
    repeat mark; the modifiers of [ev] together with the bit Alt, which
    is set in the result, the other bits being those of [ev]), and maps
    [seq] to [ev]. *)
Theorem registerKeys_alt_duplication
    (registerTerminfoKeys : Table → Table → Prop)
    (flags : Z) (T0 T : Table) (seq : string) (ev : Key) :
  has flags FlagNoTerminfo = true →
  tableBeforeAlt flags T0 →
  registerKeys registerTerminfoKeys flags T →
  T0 !! seq = Some ev →
  (∃ ev',
     T !! X1B seq = Some ev' ∧
     ev' = {| Sym := Sym ev; Rune := Rune ev;
              KeyMod := Z.lor (KeyMod ev) Alt; IsRepeat := IsRepeat ev |} ∧
     Z.land (KeyMod ev') Alt = Alt ∧
     Z.testbit (KeyMod ev') 1 = true ∧
     (∀ i, i ≠ 1 → Z.testbit (KeyMod ev') i = Z.testbit (KeyMod ev) i)) ∧
  T !! seq = Some ev.
Proof.
  intros Hflag H0 Hreg Hseq. apply registerKeys_inv in Hreg; [|done].
  apply tableBeforeAlt_unique in H0 as ->.
  destruct (altKeys_entries _ (tableBeforeAlt_esc_free flags) T seq ev
              Hreg Hseq) as [Halt Hk].
  split; [|exact Hk]. eexists. split; [exact Halt|].
  split; [reflexivity|]. exact (or_Mod_Alt_bits ev).
Qed.

Lemma registerKeys_alt_duplication_witness :
  (∃ ev',
     registerKeys_fn FlagNoTerminfo !! X1B (X1B "[A") = Some ev' ∧
     ev' = {| Sym := Sym (KD KeyUp 0 0); Rune := Rune (KD KeyUp 0 0);
              KeyMod := Z.lor (KeyMod (KD KeyUp 0 0)) Alt;
              IsRepeat := IsRepeat (KD KeyUp 0 0) |} ∧
     Z.land (KeyMod ev') Alt = Alt ∧
     Z.testbit (KeyMod ev') 1 = true ∧
     (∀ i, i ≠ 1 →
        Z.testbit (KeyMod ev') i = Z.testbit (KeyMod (KD KeyUp 0 0)) i)) ∧
  registerKeys_fn FlagNoTerminfo !! X1B "[A" = Some (KD KeyUp 0 0).
Proof.
  apply (registerKeys_alt_duplication (λ _ _, False) FlagNoTerminfo
           (tableBeforeAlt_fn FlagNoTerminfo)).
  - reflexivity.
  - apply tableBeforeAlt_sound.
  - apply registerKeys_fn_sound. reflexivity.
  - vm_compute. reflexivity.
Defined.






(** The scenario of the spec: [ESC [ 1 ; 5 C] is Right with Ctrl, in
    every table that [registerKeys] builds when the terminfo phase is
    switched off. *)
Example registerKeys_ctrl_right
    (registerTerminfoKeys : Table → Table → Prop) (T : Table) :
  registerKeys registerTerminfoKeys FlagNoTerminfo T →
  T !! X1B "[1;5C" = Some (KD KeyRight 0 Ctrl).
Proof.
  intros Hreg. apply registerKeys_inv in Hreg; [|reflexivity].
  apply (altKeys_entries _ (tableBeforeAlt_esc_free FlagNoTerminfo) T)
    with (k := X1B "[1;5C") (v := KD KeyRight 0 Ctrl) in Hreg as [_ Hk];
    [exact Hk|].
  vm_compute. reflexivity.
Qed.

(** C7 fails on the code: with the same flags (terminfo switched off),
    [registerKeys] can build a table without the key ESC ESC NUL and a
    table with it. The loop that registers the Alt combinations inserts
    into the map it ranges over, and an inserted entry may be visited in
    its turn. *)
Theorem registerKeys_two_tables
    (registerTerminfoKeys : Table → Table → Prop) :
  ∃ T1 T2,
    registerKeys registerTerminfoKeys FlagNoTerminfo T1 ∧
    registerKeys registerTerminfoKeys FlagNoTerminfo T2 ∧
    T1 !! X1B (X1B (byte_string ansi.NUL)) = None ∧
    T2 !! X1B (X1B (byte_string ansi.NUL))
      = Some (KD KeySpace 0 (Z.lor Ctrl Alt)).
Proof.
  set (T0 := tableBeforeAlt_fn FlagNoTerminfo).
  set (k := X1B (byte_string ansi.NUL)).
  set (v := KD KeySpace 0 (Z.lor Ctrl Alt)).
  exists (altKeys_fn T0), (<[X1B k := or_Mod v Alt]> (altKeys_fn T0)).
  split; [by apply (registerKeys_fn_sound _ FlagNoTerminfo)|].
  split; [|split; [vm_compute; reflexivity | apply lookup_insert_eq]].
  exists T0, (<[X1B k := or_Mod v Alt]> (altKeys_fn T0)).
  split; [apply tableBeforeAlt_sound|]. split; [|reflexivity].
  exists ({[k]} ∪ (list_to_set (map_to_list T0).*1 ∪ ∅)). split.
  - eapply rtc_r.
    + apply altKeys_fn_run, tableBeforeAlt_esc_free.
    + constructor.
      * vm_compute. reflexivity.
      * intros [Hin | Hin%not_elem_of_empty]%elem_of_union; [|done].
        apply elem_of_list_to_set, list_elem_of_fmap in Hin
          as ([k' v'] & Hk' & Hin).
        apply elem_of_map_to_list in Hin. cbn [fst] in Hk'. subst k'.
        revert Hin. vm_compute. discriminate.
  - intros k' [v' Hk']%elem_of_dom.
    apply elem_of_union_r, elem_of_union_l, elem_of_list_to_set,
      list_elem_of_fmap.
    exists (k', v'). split; [done|]. by apply elem_of_map_to_list.
Qed.

(* ================================================================== *)
(** * Further properties: mouse decoders *)

Lemma land_255_range (b : Z) : 0 ≤ Z.land b 255 < 256.
Proof.
  change 255 with (Z.ones 8). rewrite Z.land_ones by lia.
  apply Z.mod_pos_bound. lia.
Qed.

Lemma has_land_255 (b m : Z) : Z.land 255 m = m → has (Z.land b 255) m = has b m.
Proof. intros Hm. unfold has. by rewrite <- Z.land_assoc, Hm. Qed.

(** [parseMouseButton] reads the low byte of the code only. *)
Lemma parseMouseButton_low_byte (b : Z) :
  parseMouseButton (Z.land b 255) = parseMouseButton b.
Proof.
  unfold parseMouseButton.
  rewrite !has_land_255 by reflexivity.
  replace (Z.land (Z.land b 255) bitsMask) with (Z.land b bitsMask)
    by (by rewrite <- Z.land_assoc).
  reflexivity.
Qed.

Lemma parseMouseButton_all_spec
    (p : Z → Mod * MouseButton * bool * bool → bool) (b : Z) :
  parseMouseButton_all p = true →
  p (Z.land b 255) (parseMouseButton b) = true.
Proof.
  unfold parseMouseButton_all. rewrite forallb_forall. intros Hall.
  rewrite <- parseMouseButton_low_byte. apply Hall.
  apply list_elem_of_In, elem_of_seqZ. pose proof (land_255_range b). lia.
Qed.

(** X1. Whatever the button code, the button that [parseMouseButton]
    returns is one of the twelve declared buttons and has a name in
    [mouseButtons]; the modifiers are bits 2 to 4 of the code, in the
    order Shift, Alt, Ctrl, so that Meta is never set. *)
Theorem parseMouseButton_known_button (b : Z) :
  let '(mod_, btn, _, _) := parseMouseButton b in
  MouseButtonNone ≤ btn ≤ MouseButton11 ∧
  is_Some (mouseButtons !! btn) ∧
  mod_ = Z.land (Z.shiftr b 2) 7 ∧
  Z.land mod_ Meta = 0.
Proof.
  pose proof (parseMouseButton_all_spec known_button_check
    b ltac:(vm_compute; reflexivity)) as Hp.
  unfold known_button_check in Hp.
  destruct (parseMouseButton b) as [[[mod_ btn] isRelease] isMotion].
  repeat (apply andb_true_iff in Hp as [Hp ?]).
  assert (Z.land (Z.shiftr (Z.land b 255) 2) 7 = Z.land (Z.shiftr b 2) 7) as Hs.
  { rewrite Z.shiftr_land. change (Z.shiftr 255 2) with 63.
    by rewrite <- Z.land_assoc. }
  unfold MouseButtonNone, MouseButton11.
  split; [lia|]. split; [by destruct (mouseButtons !! btn)|].
  split; [rewrite <- Hs|]; by apply Z.eqb_eq.
Qed.

Lemma parseMouseButton_marks (b : Z) :
  let '(_, btn, isRelease, isMotion) := parseMouseButton b in
  isRelease = (btn =? MouseButtonNone) ∧
  isMotion = has b bitMotion && negb (isWheel btn).
Proof.
  unfold parseMouseButton.
  pose proof (land_bitsMask_range b) as Hr.
  assert (∀ n, 0 < n → (n + Z.land b bitsMask =? MouseButtonNone) = false)
    as Hpos by (intros n Hn; apply Z.eqb_neq; unfold MouseButtonNone; lia).
  destruct (has b bitAdd), (has b bitWheel);
    [rewrite Hpos by done; done..|].
  destruct (Z.land b bitsMask =? bitsMask); [done|].
  by rewrite Hpos.
Qed.


(** X3. The decomposition of a button code loses nothing on the codes
    below 0x80 that are not wheel codes with the motion bit: two such
    codes with the same modifiers, button, release and motion marks are
    equal. *)
Theorem parseMouseButton_injective (b1 b2 : Z) :
  plain_code b1 = true →
  plain_code b2 = true →
  parseMouseButton b1 = parseMouseButton b2 →
  b1 = b2.
Proof.
  intros H1 H2 Heq.
  assert (plain_codes_injective = true) as Hall by (vm_compute; reflexivity).
  unfold plain_codes_injective in Hall. rewrite forallb_forall in Hall.
  assert (∀ b, plain_code b = true → In b (seqZ 0 128)) as Hin.
  { intros b Hb. unfold plain_code in Hb.
    apply andb_true_iff in Hb as [[Hlo%Z.leb_le Hhi%Z.ltb_lt]%andb_true_iff _].
    apply list_elem_of_In, elem_of_seqZ. lia. }
  specialize (Hall b1 (Hin _ H1)). rewrite forallb_forall in Hall.
  specialize (Hall b2 (Hin _ H2)).
  rewrite H1, H2, bool_decide_eq_true_2 in Hall by done.
  by apply Z.eqb_eq.
Qed.

Lemma parseMouseButton_injective_witness : 67 = 67.
Proof.
  apply (parseMouseButton_injective 67 67); reflexivity.
Defined.

Lemma has_lor_other (b m k : Z) : Z.land m k = 0 → has (Z.lor b m) k = has b k.
Proof.
  intros Hm. unfold has. by rewrite Z.land_lor_distr_l, Hm, Z.lor_0_r.
Qed.

(** X4. On a wheel code the motion bit changes nothing: the button is
    the same wheel button and no motion is reported. *)
Theorem parseMouseButton_wheel_motion_dropped (b : Z) :
  has b bitWheel = true →
  has b bitAdd = false →
  parseMouseButton (Z.lor b bitMotion) = parseMouseButton b ∧
  ∃ mod_ btn, parseMouseButton b = (mod_, btn, false, false) ∧
              isWheel btn = true.
Proof.
  intros Hw Ha. unfold parseMouseButton.
  rewrite !has_lor_other by reflexivity.
  replace (Z.land (Z.lor b bitMotion) bitsMask) with (Z.land b bitsMask)
    by (by rewrite Z.land_lor_distr_l, Z.lor_0_r).
  rewrite Hw, Ha.
  pose proof (land_bitsMask_range b) as Hr.
  assert (isWheel (MouseButtonWheelUp + Z.land b bitsMask) = true) as Hwh.
  { unfold isWheel, MouseButtonWheelUp, MouseButtonWheelRight.
    apply andb_true_iff. split; apply Z.leb_le; lia. }
  rewrite Hwh, !andb_false_r. split; [reflexivity|]. eauto.
Qed.

Lemma parseMouseButton_wheel_motion_dropped_witness :
  parseMouseButton (Z.lor 65 bitMotion) = parseMouseButton 65 ∧
  ∃ mod_ btn, parseMouseButton 65 = (mod_, btn, false, false) ∧
              isWheel btn = true.
Proof.
  apply (parseMouseButton_wheel_motion_dropped 65); reflexivity.
Defined.

Lemma byte_val_range (c : ascii) : 0 ≤ byte_val c < 256.
Proof.
  unfold byte_val. pose proof (N_ascii_bounded c). lia.
Qed.

(** The slice expression [buf[3:6]] of [parseX10MouseEvent]: it is
    bounded by the capacity, and yields the three bytes at the offsets 3,
    4 and 5 of the backing array. *)
Lemma slice_expr_3_6 (buf : slice) :
  match slice_expr buf 3 6 with
  | None => (slice_cap buf < 6)%nat
  | Some v =>
      (6 ≤ slice_cap buf)%nat ∧
      ∃ v0 v1 v2,
        elems v = [v0; v1; v2] ∧
        (elems buf ++ spare buf) !! 3%nat = Some v0 ∧
        (elems buf ++ spare buf) !! 4%nat = Some v1 ∧
        (elems buf ++ spare buf) !! 5%nat = Some v2
  end.
Proof.
  unfold slice_expr, slice_cap.
  destruct (elems buf ++ spare buf)
    as [|p0 [|p1 [|p2 [|v0 [|v1 [|v2 rest]]]]]];
    cbn [length Nat.leb andb]; try lia.
  split; [lia|]. by exists v0, v1, v2.
Qed.

(** X5. [parseX10MouseEvent] panics exactly when the capacity of the
    buffer is below six: the slice expression [buf[3:6]] is checked
    against the capacity, not the length, so a shorter slice of a longer
    array is decoded from the bytes behind its end. Otherwise the result
    is a mouse event read from the bytes at the offsets 3, 4 and 5 of the
    backing array; its coordinates lie between -33 and 222, and a MouseUp
    event of this decoder never names a button. *)
Theorem parseX10MouseEvent_result (buf : slice) :
  match parseX10MouseEvent buf with
  | None => (slice_cap buf < 6)%nat
  | Some e =>
      (6 ≤ slice_cap buf)%nat ∧
      ∃ m vx vy,
        mouse_of e = Some m ∧
        (elems buf ++ spare buf) !! 4%nat = Some vx ∧
        (elems buf ++ spare buf) !! 5%nat = Some vy ∧
        X m = byte_val vx - 33 ∧ Y m = byte_val vy - 33 ∧
        -33 ≤ X m ≤ 222 ∧ -33 ≤ Y m ≤ 222 ∧
        (e = MouseUpEvent m → Button m = MouseButtonNone)
  end.
Proof.
  unfold parseX10MouseEvent.
  pose proof (slice_expr_3_6 buf) as Hv.
  destruct (slice_expr buf 3 6) as [v|]; [|exact Hv].
  destruct Hv as (Hcap & v0 & v1 & v2 & Hv & _ & H1 & H2).
  cbn [mbind option_bind]. unfold slice_index. rewrite Hv.
  cbn [mbind option_bind lookup list_lookup].
  pose proof (parseMouseButton_marks
    (if x10MouseByteOffset <=? byte_val v0
     then byte_val v0 - x10MouseByteOffset else byte_val v0)) as Hrel.
  destruct (parseMouseButton _) as [[[mod_ btn] isRelease] isMotion].
  destruct Hrel as (Hnone & _).
  pose proof (byte_val_range v1). pose proof (byte_val_range v2).
  cbn [mbind option_bind lookup list_lookup]. unfold x10MouseByteOffset.
  destruct isMotion, isRelease; (split; [exact Hcap|]);
    eexists _, v1, v2; (split; [reflexivity|]); cbn [X Y Button];
    (split; [exact H1|]); (split; [exact H2|]);
    (split; [lia|]); (split; [lia|]); (split; [lia|]); (split; [lia|]);
    try discriminate.
  intros _. symmetry in Hnone. by apply Z.eqb_eq in Hnone.
Qed.

Lemma span_digits_no_final (s : string) :
  no_final s = true → no_final (span_digits s).2 = true.
Proof.
  induction s as [|c s IH]; [done|]. intros Hs. cbn [span_digits].
  destruct (is_digit c); [|done].
  cbn [no_final] in Hs. apply andb_true_iff in Hs as [_ Hs].
  specialize (IH Hs). by destruct (span_digits s).
Qed.

Lemma expect_no_final (c : ascii) (s r : string) :
  no_final s = true → expect c s = Some r → no_final r = true.
Proof.
  destruct s as [|c' s]; [done|]. cbn [expect no_final].
  intros [_ Hs]%andb_true_iff. case_decide; naive_solver.
Qed.

Lemma mouseSGR_match_here_no_final (s : string) :
  no_final s = true → mouseSGR_match_here s = None.
Proof.
  intros Hs. unfold mouseSGR_match_here.
  pose proof (span_digits_no_final s Hs) as H1.
  destruct (span_digits s) as [d1 r1]. cbn [snd] in H1.
  destruct (negb (nonempty d1)); [done|].
  destruct (expect ";" r1) as [r2|] eqn:He1; [|done].
  pose proof (expect_no_final _ _ _ H1 He1) as H2.
  pose proof (span_digits_no_final r2 H2) as H3.
  destruct (span_digits r2) as [d2 r3]. cbn [snd] in H3.
  destruct (negb (nonempty d2)); [done|].
  destruct (expect ";" r3) as [r4|] eqn:He2; [|done].
  pose proof (expect_no_final _ _ _ H3 He2) as H4.
  pose proof (span_digits_no_final r4 H4) as H5.
  destruct (span_digits r4) as [d3 r5]. cbn [snd] in H5.
  destruct (negb (nonempty d3)); [done|].
  destruct r5 as [|t r6]; [done|].
  cbn [no_final] in H5. apply andb_true_iff in H5 as [Ht _].
  unfold is_final in Ht. apply negb_true_iff in Ht. by rewrite Ht.
Qed.

Lemma mouseSGRRegex_no_final (s : string) :
  no_final s = true → mouseSGRRegex_FindStringSubmatch s = [].
Proof.
  induction s as [|c s IH]; intros Hs.
  - reflexivity.
  - cbn [mouseSGRRegex_FindStringSubmatch].
    rewrite mouseSGR_match_here_no_final by done.
    cbn [no_final] in Hs. apply andb_true_iff in Hs as [_ Hs]. by apply IH.
Qed.

Lemma no_final_string_of_list (l : list ascii) :
  no_final (String.string_of_list_ascii l)
  = forallb (λ c, negb (is_final c)) l.
Proof. induction l as [|c l IH]; [done|]. simpl. by rewrite IH. Qed.

(** X6. [parseSGRMouseEvent] needs three bytes (a shorter buffer makes
    the slice expression panic). A buffer that has neither [M] nor [m]
    after its first three bytes is not a mouse report: the result is
    [UnknownCsiEvent] with the bytes of the buffer, unchanged. *)
Theorem parseSGRMouseEvent_unterminated (buf : list ascii) :
  forallb (λ c, negb (is_final c)) (drop 3 buf) = true →
  parseSGRMouseEvent buf
  = if (length buf <? 3)%nat then None else Some (UnknownCsiEvent buf).
Proof.
  intros Hbuf. unfold parseSGRMouseEvent.
  destruct (length buf <? 3)%nat; [done|].
  by rewrite mouseSGRRegex_no_final by by rewrite no_final_string_of_list.
Qed.

Lemma parseSGRMouseEvent_unterminated_witness :
  parseSGRMouseEvent (bytes (X1B "[<0;1;1"))
  = if (length (bytes (X1B "[<0;1;1")) <? 3)%nat then None
    else Some (UnknownCsiEvent (bytes (X1B "[<0;1;1"))).
Proof.
  apply (parseSGRMouseEvent_unterminated (bytes (X1B "[<0;1;1"))).
  reflexivity.
Defined.

Lemma digit_of_digit (c : ascii) :
  is_digit c = true →
  digit_of c = Some (byte_val c - 48) ∧ 0 ≤ byte_val c - 48 < 10.
Proof.
  unfold is_digit, digit_of. intros Hc. rewrite Hc.
  apply andb_true_iff in Hc as [Hlo%Z.leb_le Hhi%Z.leb_le]. split; [done|lia].
Qed.

Lemma dec_value_from_ge (s : string) (n : Z) :
  all_digits s = true → 0 ≤ n → n ≤ dec_value_from n s.
Proof.
  revert n. induction s as [|c s IH]; intros n Hs Hn; [simpl; lia|].
  cbn [all_digits] in Hs. apply andb_true_iff in Hs as [Hc Hs].
  apply digit_of_digit in Hc as [_ Hc].
  cbn [dec_value_from].
  specialize (IH (n * 10 + (byte_val c - 48)) Hs ltac:(lia)). lia.
Qed.

(** The digit loop of [ParseUint] on decimal digits: the value, or the
    bound with a range error. *)
Lemma ParseUint_loop_dec (maxVal : Z) (s : string) (n : Z) :
  all_digits s = true → 0 ≤ n ≤ maxVal →
  ParseUint_loop 10 maxVal s n
  = if dec_value_from n s <=? maxVal then (dec_value_from n s, true)
    else (maxVal, false).
Proof.
  revert n. induction s as [|c s IH]; intros n Hs Hn.
  - cbn [ParseUint_loop dec_value_from].
    by rewrite (proj2 (Z.leb_le _ _)) by lia.
  - cbn [all_digits] in Hs. apply andb_true_iff in Hs as [Hc Hs].
    apply digit_of_digit in Hc as [Hd Hc].
    cbn [ParseUint_loop dec_value_from]. rewrite Hd.
    assert ((10 <=? byte_val c - 48) = false) as -> by (apply Z.leb_gt; lia).
    pose proof (dec_value_from_ge s (n * 10 + (byte_val c - 48)) Hs
                  ltac:(lia)) as Hge.
    destruct (Z.ltb_spec maxVal (n * 10 + (byte_val c - 48))) as [Hov|Hok].
    + by rewrite (proj2 (Z.leb_gt _ _)) by lia.
    + apply IH; [done | lia].
Qed.

(** [Atoi] on a number: the value that its digits write, or the largest
    [int] when that value does not fit. *)
Lemma Atoi_number (s : string) : is_number s = true → Atoi s = saturated s.
Proof.
  unfold is_number. intros [Hne Hs]%andb_true_iff.
  destruct s as [|c s]; [done|].
  assert (Atoi (String c s)
          = let '(un, ok) := ParseUint (String c s) 10 64 in
            if negb ok && negb (un =? 2 ^ 64 - 1) then 0
            else if 2 ^ 63 <=? un then 2 ^ 63 - 1 else un) as ->.
  { cbn [all_digits] in Hs. apply andb_true_iff in Hs as [Hc _].
    unfold Atoi. destruct c as [[] [] [] [] [] [] [] []];
      try discriminate Hc; reflexivity. }
  unfold ParseUint. rewrite ParseUint_loop_dec by (done || lia).
  fold (dec_value (String c s)). unfold saturated.
  pose proof (dec_value_from_ge (String c s) 0 Hs ltac:(lia)) as Hge.
  fold (dec_value (String c s)) in Hge.
  destruct (Z.leb_spec (dec_value (String c s)) (2 ^ 64 - 1)) as [Hok|Hov].
  - cbn [negb andb].
    destruct (Z.leb_spec (2 ^ 63) (dec_value (String c s))); lia.
  - cbn [negb andb]. rewrite Z.eqb_refl. cbn [negb]. 
    rewrite (proj2 (Z.leb_le (2 ^ 63) (2 ^ 64 - 1))) by lia. lia.
Qed.

Lemma saturated_range (s : string) :
  all_digits s = true → 0 ≤ saturated s ≤ 2 ^ 63 - 1.
Proof.
  intros Hs. unfold saturated.
  pose proof (dec_value_from_ge s 0 Hs ltac:(lia)) as Hge.
  fold (dec_value s) in Hge. lia.
Qed.

(** X7. An SGR mouse report [ESC [ < b ; x ; y] ended by [M] or [m]
    decodes as follows. The numbers are read in decimal and an
    over-large number counts as the largest [int]; the coordinates are
    the numbers less one, so never below -1. The kind of the event is
    MouseDown for a wheel button, else MouseMove when the motion bit is
    set, else MouseUp for the final [m] and MouseDown for the final
    [M]. *)
Theorem parseSGRMouseEvent_decode (db dx dy : string) (t : ascii) :
  is_number db = true → is_number dx = true → is_number dy = true →
  t = "M"%char ∨ t = "m"%char →
  let b := saturated db in
  let '(mod_, btn, _, _) := parseMouseButton b in
  let m := {| X := saturated dx - 1; Y := saturated dy - 1;
              Button := btn; MouseMod := mod_ |} in
  parseSGRMouseEvent
    (bytes (X1B ("[<" +:+ db +:+ ";" +:+ dx +:+ ";" +:+ dy +:+ String t "")))
  = Some (if isWheel btn then MouseDownEvent m
          else if has b bitMotion then MouseMoveEvent m
          else if bool_decide (t = "m"%char) then MouseUpEvent m
          else MouseDownEvent m) ∧
  -1 ≤ X m ≤ 2 ^ 63 - 2 ∧ -1 ≤ Y m ≤ 2 ^ 63 - 2.
Proof.
  intros Hb Hx Hy Ht. cbv zeta.
  rewrite parseSGRMouseEvent_wellformed by done.
  rewrite !Atoi_number by done.
  pose proof (parseMouseButton_marks (saturated db)) as Hm.
  destruct (parseMouseButton _) as [[[mod_ btn] isRelease] isMotion].
  destruct Hm as [_ ->]. cbn [X Y].
  apply andb_true_iff in Hx as [_ Hx], Hy as [_ Hy].
  pose proof (saturated_range dx Hx). pose proof (saturated_range dy Hy).
  split; [|lia].
  destruct (isWheel btn), (has (saturated db) bitMotion),
    (bool_decide (t = "m"%char)); reflexivity.
Qed.

Lemma parseSGRMouseEvent_decode_witness :
  let b := saturated "35" in
  let '(mod_, btn, _, _) := parseMouseButton b in
  let m := {| X := saturated "10" - 1; Y := saturated "99999999999999999999" - 1;
              Button := btn; MouseMod := mod_ |} in
  parseSGRMouseEvent
    (bytes (X1B ("[<" +:+ "35" +:+ ";" +:+ "10" +:+ ";"
                 +:+ "99999999999999999999" +:+ String "m" "")))
  = Some (if isWheel btn then MouseDownEvent m
          else if has b bitMotion then MouseMoveEvent m
          else if bool_decide ("m"%char = "m"%char) then MouseUpEvent m
          else MouseDownEvent m) ∧
  -1 ≤ X m ≤ 2 ^ 63 - 2 ∧ -1 ≤ Y m ≤ 2 ^ 63 - 2.
Proof.
  apply (parseSGRMouseEvent_decode "35" "10" "99999999999999999999" "m");
    solve [reflexivity | by right].
Defined.

(** X24. Printing a decoded mouse record: for every button code and all
    coordinates, [mouse.String] of the record that [parseMouseButton]
    fills prints the modifiers of bits 0x10, 0x08 and 0x04 as [ctrl+],
    [alt+], [shift+], in this order, then the name of the button; it
    prints no name for the button None and never prints [unknown]. *)
Theorem mouse_String_decoded (b x y : Z) :
  let '(mod_, btn, _, _) := parseMouseButton b in
  mouse_String {| X := x; Y := y; Button := btn; MouseMod := mod_ |}
  = decoded_name b btn ∧
  is_Some (mouseButtons !! btn).
Proof.
  pose proof (parseMouseButton_all_spec mouse_String_check b
                ltac:(vm_compute; reflexivity)) as Hp.
  unfold mouse_String_check in Hp.
  destruct (parseMouseButton b) as [[[mod_ btn] isRelease] isMotion].
  apply andb_true_iff in Hp as [Hs%bool_decide_eq_true Hn].
  split; [|by destruct (mouseButtons !! btn)].
  unfold decoded_name in *.
  rewrite !has_land_255 in Hs by reflexivity. exact Hs.
Qed.

(* ================================================================== *)
(** * Further properties: colour replies *)

Lemma byte_hex (v : Z) : is_byte v = true → byte_hex_check v = true.
Proof.
  unfold is_byte. intros [Hlo%Z.leb_le Hhi%Z.ltb_lt]%andb_true_iff.
  assert (forallb byte_hex_check (seqZ 0 256) = true) as Hall
    by (vm_compute; reflexivity).
  rewrite forallb_forall in Hall. apply Hall.
  apply list_elem_of_In, elem_of_seqZ. lia.
Qed.

Lemma byte_hex_facts (v : Z) :
  is_byte v = true →
  hex_component (Sprintf_02x v) = true ∧
  hex_value (Sprintf_02x v) = v ∧
  hex_component (Sprintf_02x v +:+ Sprintf_02x v) = true ∧
  hex_value (Sprintf_02x v +:+ Sprintf_02x v) mod 256 = v ∧
  Z.shiftr (Z.lor v (Z.shiftl v 8)) 8 = v.
Proof.
  intros Hv. pose proof (byte_hex v Hv) as Hc.
  unfold byte_hex_check in Hc. cbv zeta in Hc.
  apply andb_true_iff in Hc as [Hc H5%Z.eqb_eq].
  apply andb_true_iff in Hc as [Hc H4%Z.eqb_eq].
  apply andb_true_iff in Hc as [Hc H3].
  apply andb_true_iff in Hc as [H1 H2%Z.eqb_eq].
  done.
Qed.

Lemma is_byte_mod (v : Z) : is_byte v = true → v mod 256 = v.
Proof.
  unfold is_byte. intros [Hlo%Z.leb_le Hhi%Z.ltb_lt]%andb_true_iff.
  by apply Z.mod_small.
Qed.

Lemma Sprintf_02x_lower_hex (v : Z) :
  is_byte v = true →
  Sprintf_02x v
  = String
      (default "0"%char (String.get (Z.to_nat (v / 16)) "0123456789abcdef"))
      (String
         (default "0"%char
            (String.get (Z.to_nat (v mod 16)) "0123456789abcdef"))
         "").
Proof.
  unfold is_byte. intros [Hlo%Z.leb_le Hhi%Z.ltb_lt]%andb_true_iff.
  assert (forallb lower_hex_check (seqZ 0 256) = true) as Hall
    by (vm_compute; reflexivity).
  rewrite forallb_forall in Hall.
  assert (In v (seqZ 0 256)) as Hin
    by (apply list_elem_of_In, elem_of_seqZ; lia).
  specialize (Hall v Hin). unfold lower_hex_check in Hall.
  by apply bool_decide_eq_true in Hall.
Qed.

(** X8. For 8-bit channels, [colorToHex] prints [#] and then, for the
    red, the green and the blue channel, the two digits of the byte out
    of [0123456789abcdef], the high one first, whatever the alpha; and a
    reply [rgb:rr/gg/bb] with these digits is parsed by [xParseColor] to
    the colour with these channels, which prints as [#rrggbb] again. *)
Theorem colorToHex_xParseColor_round_trip (r g b a : Z) :
  is_byte r = true → is_byte g = true → is_byte b = true →
  let digit (n : Z) : ascii :=
    default "0"%char (String.get (Z.to_nat n) "0123456789abcdef") in
  let two (v : Z) : string :=
    String (digit (v / 16)) (String (digit (v mod 16)) "") in
  colorToHex (RGBA r g b a) = "#" +:+ two r +:+ two g +:+ two b ∧
  xParseColor ("rgb:" +:+ two r +:+ "/" +:+ two g +:+ "/" +:+ two b)
  = RGBA r g b 255 ∧
  colorToHex
    (xParseColor ("rgb:" +:+ two r +:+ "/" +:+ two g +:+ "/" +:+ two b))
  = "#" +:+ two r +:+ two g +:+ two b.
Proof.
  intros Hr Hg Hb. cbv beta zeta.
  rewrite <- !(Sprintf_02x_lower_hex r Hr), <- !(Sprintf_02x_lower_hex g Hg),
    <- !(Sprintf_02x_lower_hex b Hb).
  destruct (byte_hex_facts r Hr) as (Hcr & Hvr & _ & _ & Hsr).
  destruct (byte_hex_facts g Hg) as (Hcg & Hvg & _ & _ & Hsg).
  destruct (byte_hex_facts b Hb) as (Hcb & Hvb & _ & _ & Hsb).
  assert (∀ a', colorToHex (RGBA r g b a')
          = "#" +:+ Sprintf_02x r +:+ Sprintf_02x g +:+ Sprintf_02x b) as Hhex.
  { intros a'. unfold colorToHex, Color_RGBA. by rewrite Hsr, Hsg, Hsb. }
  destruct (xParseColor_wellformed _ _ _ _ Hcr Hcg Hcb Hcr) as [Hp _].
  rewrite Hvr, Hvg, Hvb, !is_byte_mod in Hp by done.
  rewrite Hp. auto.
Qed.

Lemma colorToHex_xParseColor_round_trip_witness :
  colorToHex (RGBA 255 10 0 7) = "#ff0a00" ∧
  xParseColor "rgb:ff/0a/00" = RGBA 255 10 0 255 ∧
  colorToHex (xParseColor "rgb:ff/0a/00") = "#ff0a00".
Proof.
  exact (colorToHex_xParseColor_round_trip 255 10 0 7
           eq_refl eq_refl eq_refl).
Defined.

(** X9. A reply that writes every channel as its byte twice
    ([rgb:rrrr/gggg/bbbb], the 16-bit form of an 8-bit colour) is parsed
    to that colour: the low byte that [xParseColor] keeps is the byte. *)
Theorem xParseColor_doubled_bytes (r g b : Z) :
  is_byte r = true → is_byte g = true → is_byte b = true →
  xParseColor
    ("rgb:" +:+ (Sprintf_02x r +:+ Sprintf_02x r) +:+ "/"
     +:+ (Sprintf_02x g +:+ Sprintf_02x g) +:+ "/"
     +:+ (Sprintf_02x b +:+ Sprintf_02x b))
  = RGBA r g b 255.
Proof.
  intros Hr Hg Hb.
  destruct (byte_hex_facts r Hr) as (_ & _ & Hcr & Hvr & _).
  destruct (byte_hex_facts g Hg) as (_ & _ & Hcg & Hvg & _).
  destruct (byte_hex_facts b Hb) as (_ & _ & Hcb & Hvb & _).
  destruct (xParseColor_wellformed _ _ _ _ Hcr Hcg Hcb Hcr) as [Hp _].
  by rewrite Hvr, Hvg, Hvb in Hp.
Qed.

Lemma xParseColor_doubled_bytes_witness :
  xParseColor
    ("rgb:" +:+ (Sprintf_02x 30 +:+ Sprintf_02x 30) +:+ "/"
     +:+ (Sprintf_02x 171 +:+ Sprintf_02x 171) +:+ "/"
     +:+ (Sprintf_02x 0 +:+ Sprintf_02x 0))
  = RGBA 30 171 0 255.
Proof.
  apply (xParseColor_doubled_bytes 30 171 0); reflexivity.
Defined.

Lemma Split_length (s : string) : length (Split s "/") = S (count_slash s).
Proof.
  induction s as [|c s IH]; [done|]. cbn [Split count_slash].
  case_decide; cbn [length]; [by rewrite IH|].
  destruct (Split s "/"); cbn [length] in *; lia.
Qed.

Lemma Split_no_slash (a : string) : count_slash a = O → Split a "/" = [a].
Proof.
  induction a as [|c a IH]; [done|]. cbn [Split count_slash].
  case_decide; [done|]. intros Ha. by rewrite (IH Ha).
Qed.

Lemma Split_app_slash (a r : string) :
  count_slash a = O → Split (a +:+ "/" +:+ r) "/" = a :: Split r "/".
Proof.
  intros Ha. change ("/" +:+ r) with (String "/"%char r).
  induction a as [|c a IH]; [done|].
  cbn [count_slash] in Ha. rewrite app_String. cbn [Split].
  case_decide; [done|]. by rewrite (IH Ha).
Qed.

Lemma to_uint8_is_byte (v : Z) : is_byte (to_uint8 v) = true.
Proof.
  unfold is_byte, to_uint8. pose proof (Z.mod_pos_bound v 256 ltac:(lia)).
  apply andb_true_iff. split; [apply Z.leb_le | apply Z.ltb_lt]; lia.
Qed.

(** X10. [xParseColor] counts the components and nothing else: after
    [rgb:] a string with exactly two separators gives an RGBA colour with
    alpha 255, and any other number of separators gives [color.Black];
    after [rgba:] the same with three separators. *)
Theorem xParseColor_component_count (rest : string) :
  (if (count_slash rest =? 2)%nat
   then ∃ r g b, xParseColor ("rgb:" +:+ rest) = RGBA r g b 255 ∧
                 is_byte r = true ∧ is_byte g = true ∧ is_byte b = true
   else xParseColor ("rgb:" +:+ rest) = Black) ∧
  (if (count_slash rest =? 3)%nat
   then ∃ r g b a, xParseColor ("rgba:" +:+ rest) = RGBA r g b a ∧
                   is_byte r = true ∧ is_byte g = true ∧
                   is_byte b = true ∧ is_byte a = true
   else xParseColor ("rgba:" +:+ rest) = Black).
Proof.
  pose proof (Split_length rest) as Hlen.
  unfold xParseColor. split.
  - change ("rgb:" +:+ rest)
      with (String "r" (String "g" (String "b" (String ":" rest)))).
    cbn [HasPrefix string_drop]. rewrite !decide_True by done.
    destruct (Split rest "/") as [|p0 [|p1 [|p2 [|p3 ps]]]];
      cbn [length] in Hlen;
      destruct (Nat.eqb_spec (count_slash rest) 2); try lia; try reflexivity.
    eexists _, _, _. split; [reflexivity|].
    repeat split; apply to_uint8_is_byte.
  - change ("rgba:" +:+ rest)
      with (String "r" (String "g" (String "b" (String "a" (String ":" rest))))).
    cbn [HasPrefix string_drop]. rewrite !decide_True by done.
    rewrite decide_False by done. rewrite !decide_True by done.
    destruct (Split rest "/") as [|p0 [|p1 [|p2 [|p3 [|p4 ps]]]]];
      cbn [length] in Hlen;
      destruct (Nat.eqb_spec (count_slash rest) 3); try lia; try reflexivity.
    eexists _, _, _, _. split; [reflexivity|].
    repeat split; apply to_uint8_is_byte.
Qed.

Lemma ParseUint_loop_not_hex (s : string) (n : Z) :
  all_hex s = false → 0 ≤ n →
  (n + 1) * 16 ^ Z.of_nat (String.length s) ≤ 2 ^ 32 →
  ParseUint_loop 16 (2 ^ 32 - 1) s n = (0, false).
Proof.
  revert n. induction s as [|c s IH]; intros n Hs Hn Hb; [done|].
  cbn [all_hex] in Hs. cbn [ParseUint_loop].
  cbn [String.length] in Hb.
  rewrite Nat2Z.inj_succ, Z.pow_succ_r in Hb by lia.
  unfold is_hex_digit in Hs.
  destruct (digit_of c) as [d|] eqn:Hd; [|done].
  assert (0 ≤ d).
  { unfold digit_of in Hd. repeat case_match; simplify_eq; lia. }
  destruct (Z.ltb_spec d 16) as [Hlt|Hge].
  - cbn [andb] in Hs.
    assert ((16 <=? d) = false) as -> by (apply Z.leb_gt; lia).
    assert (0 < 16 ^ Z.of_nat (String.length s)) as Hpos
      by (apply Z.pow_pos_nonneg; lia).
    assert ((n * 16 + d + 1) * 16 ^ Z.of_nat (String.length s)
            ≤ ((n + 1) * 16) * 16 ^ Z.of_nat (String.length s))
      by (apply Z.mul_le_mono_nonneg_r; lia).
    assert (n * 16 + d + 1 ≤ (n * 16 + d + 1) * 16 ^ Z.of_nat (String.length s))
      by nia.
    assert ((2 ^ 32 - 1 <? n * 16 + d) = false) as ->
      by (apply Z.ltb_ge; lia).
    apply IH; [done | lia | lia].
  - by assert ((16 <=? d) = true) as -> by (apply Z.leb_le; lia).
Qed.

(** A component of at most 8 bytes: the channel read from it. *)
Lemma ParseUint_channel (s : string) :
  (String.length s ≤ 8)%nat →
  to_uint8 (ParseUint s 16 32).1 = channel s.
Proof.
  intros Hlen. unfold channel, to_uint8.
  destruct s as [|c s]; [done|]. cbn [nonempty andb].
  assert (16 ^ Z.of_nat (String.length (String c s)) ≤ 16 ^ 8)
    by (apply Z.pow_le_mono_r; lia).
  unfold ParseUint.
  destruct (all_hex (String c s)) eqn:Hs.
  - pose proof (hex_value_from_bounds _ 0 Hs ltac:(lia)) as Hb.
    rewrite ParseUint_loop_hex; [done..|lia].
  - rewrite ParseUint_loop_not_hex; [done..|lia].
Qed.

(** X11. The channels that [xParseColor] reads from components of at
    most 8 bytes: the low byte of a hexadecimal number, and 0, without an
    error, for a component that is empty or is not a hexadecimal
    number. *)
Theorem xParseColor_channels (r g b a : string) :
  count_slash r = O → count_slash g = O →
  count_slash b = O → count_slash a = O →
  (String.length r ≤ 8)%nat → (String.length g ≤ 8)%nat →
  (String.length b ≤ 8)%nat → (String.length a ≤ 8)%nat →
  xParseColor ("rgb:" +:+ r +:+ "/" +:+ g +:+ "/" +:+ b)
  = RGBA (channel r) (channel g) (channel b) 255 ∧
  xParseColor ("rgba:" +:+ r +:+ "/" +:+ g +:+ "/" +:+ b +:+ "/" +:+ a)
  = RGBA (channel r) (channel g) (channel b) (channel a).
Proof.
  intros Hr Hg Hb Ha Lr Lg Lb La. unfold xParseColor. split.
  - change ("rgb:" +:+ ?s)
      with (String "r" (String "g" (String "b" (String ":" s)))).
    cbn [HasPrefix string_drop]. rewrite !decide_True by done.
    rewrite !Split_app_slash, Split_no_slash by done.
    by rewrite !ParseUint_channel by done.
  - change ("rgba:" +:+ ?s)
      with (String "r" (String "g" (String "b" (String "a" (String ":" s))))).
    cbn [HasPrefix string_drop]. rewrite !decide_True by done.
    rewrite decide_False by done. rewrite !decide_True by done.
    rewrite !Split_app_slash, Split_no_slash by done.
    by rewrite !ParseUint_channel by done.
Qed.

Lemma xParseColor_channels_witness :
  xParseColor ("rgb:" +:+ "1ff" +:+ "/" +:+ "" +:+ "/" +:+ "zz")
  = RGBA (channel "1ff") (channel "") (channel "zz") 255 ∧
  xParseColor
    ("rgba:" +:+ "1ff" +:+ "/" +:+ "" +:+ "/" +:+ "zz" +:+ "/" +:+ "80")
  = RGBA (channel "1ff") (channel "") (channel "zz") (channel "80").
Proof.
  apply (xParseColor_channels "1ff" "" "zz" "80");
    solve [reflexivity | vm_compute; lia].
Defined.

(* ================================================================== *)
(** * Further properties: Windows console key records *)

Lemma ctrlRune_nonzero (r c : Z) : ctrlRune r = Some c → c ≠ 0.
Proof.
  unfold ctrlRune. intros Hc.
  repeat (case_match; try (simplify_eq; done)).
Qed.

Lemma ctrlRune_letter (r : Z) : 1 ≤ r ≤ 26 → ctrlRune r = Some (r + 96).
Proof.
  intros Hr.
  assert (In r (seqZ 1 26)) as Hin
    by (apply list_elem_of_In, elem_of_seqZ; lia).
  assert (forallb (λ r, bool_decide (ctrlRune r = Some (r + 96))) (seqZ 1 26)
          = true) as Hall by (vm_compute; reflexivity).
  rewrite forallb_forall in Hall. by apply Hall, bool_decide_eq_true_1 in Hin.
Qed.

Lemma vkKeyEvent_entry (vkc : Z) (k0 : Key) :
  vkKeyEvent !! vkc = Some k0 →
  KeyMod k0 = 0 ∧ IsRepeat k0 = false ∧
  ((Rune k0 =? 0) && bool_decide (Sym k0 = KeyNone)) = false.
Proof.
  intros Hk.
  pose proof (map_forallb_lookup vkKeyEvent
    (λ _ k, ((KeyMod k =? 0) && negb (IsRepeat k)) &&
            negb ((Rune k =? 0) && bool_decide (Sym k = KeyNone)))
    eq_refl vkc k0 Hk) as Hp.
  cbv beta in Hp. apply andb_true_iff in Hp as [Hp Hp3].
  apply andb_true_iff in Hp as [Hp1 Hp2].
  apply Z.eqb_eq in Hp1. apply negb_true_iff in Hp2, Hp3. done.
Qed.

(** The key that the record stands for, before the repeat mark. *)
Lemma parseWin32InputKeyEvent_unfold
    (vkc sc r : Z) (keyDown : bool) (cks repeatCount : Z) :
  let k :=
    match vkKeyEvent !! vkc with
    | Some k0 => {| Sym := Sym k0; Rune := Rune k0;
                    KeyMod := cks_Mod cks; IsRepeat := false |}
    | None => {| Sym := KeyNone; Rune := unlisted_rune cks r;
                 KeyMod := cks_Mod cks; IsRepeat := false |}
    end in
  parseWin32InputKeyEvent vkc sc r keyDown cks repeatCount
  = if lock_on cks && (Rune k =? 0) && bool_decide (Sym k = KeyNone)
    then nil_Event
    else batch repeatCount
           (if keyDown then KeyDownEvent k
            else KeyUpEvent (set_IsRepeat k (1 <? repeatCount))).
Proof.
  cbv zeta.
  unfold parseWin32InputKeyEvent, cks_Mod, unlisted_rune, lock_on, ctrl_held,
    batch.
  destruct (vkKeyEvent !! vkc) as [k0|] eqn:Hk.
  - destruct (vkKeyEvent_entry _ _ Hk) as (Hmod & Hrep & _).
    destruct k0 as [s ru m rp]. cbn [KeyMod IsRepeat] in Hmod, Hrep.
    subst m rp. cbn [negb andb].
    destruct (coninput.Contains cks (Z.lor coninput.LEFT_CTRL_PRESSED _)),
      (coninput.Contains cks (Z.lor coninput.LEFT_ALT_PRESSED _)),
      (coninput.Contains cks coninput.SHIFT_PRESSED);
      cbn [or_Mod set_Mod set_IsRepeat Sym Rune KeyMod IsRepeat];
      by destruct keyDown.
  - assert (vkc ≠ coninput.VK_OEM_4) as Hoem by (by intros ->).
    apply Z.eqb_neq in Hoem. cbn [negb andb].
    unfold vkCtrlRune. rewrite Hoem.
    destruct (coninput.Contains cks (Z.lor coninput.LEFT_CTRL_PRESSED _)),
      (coninput.Contains cks (Z.lor coninput.LEFT_ALT_PRESSED _)),
      (coninput.Contains cks coninput.SHIFT_PRESSED), (ctrlRune r);
      cbn [or_Mod set_Mod set_Rune set_IsRepeat KD Sym Rune KeyMod IsRepeat];
      by destruct keyDown.
Qed.

(** X12. [parseWin32InputKeyEvent] drops a record (returns nil) exactly
    when a lock bit is on, the virtual-key code is not in [vkKeyEvent],
    and no character is left: with Ctrl held, the character has no case
    in [vkCtrlRune]; without Ctrl, it is 0. A record of a key of the
    table is never dropped. *)
Theorem parseWin32InputKeyEvent_nil
    (vkc sc r : Z) (keyDown : bool) (cks repeatCount : Z) :
  parseWin32InputKeyEvent vkc sc r keyDown cks repeatCount = nil_Event ↔
  lock_on cks = true ∧ vkKeyEvent !! vkc = None ∧ unlisted_rune cks r = 0.
Proof.
  rewrite parseWin32InputKeyEvent_unfold. cbv zeta.
  destruct (vkKeyEvent !! vkc) as [k0|] eqn:Hk; cbn [Sym Rune].
  - destruct (vkKeyEvent_entry _ _ Hk) as (_ & _ & Hnz).
    rewrite <- andb_assoc, Hnz, andb_false_r. unfold batch.
    split; [|by intros (_ & ? & _)].
    destruct (repeatCount <=? 1), keyDown; discriminate.
  - rewrite bool_decide_eq_true_2, andb_true_r by done.
    destruct (lock_on cks), (Z.eqb_spec (unlisted_rune cks r) 0);
      cbn [andb]; unfold batch;
      try (split; [|tauto || (intros (? & _ & ?); done)];
           destruct (repeatCount <=? 1), keyDown; discriminate).
    done.
Qed.

(** X13. A record that is not dropped gives one event, or for a repeat
    count [n] above 1 a batch of exactly [n] copies of one event. The
    event is a KeyDown for a press and a KeyUp for a release; its
    modifiers are those of the control-key state (Ctrl, Alt, Shift, never
    Meta); for a key of [vkKeyEvent] its symbol and character are those
    of the table, whatever the character of the record. *)
Theorem parseWin32InputKeyEvent_shape
    (vkc sc r : Z) (keyDown : bool) (cks repeatCount : Z) :
  parseWin32InputKeyEvent vkc sc r keyDown cks repeatCount = nil_Event ∨
  ∃ k,
    parseWin32InputKeyEvent vkc sc r keyDown cks repeatCount
    = batch repeatCount (if keyDown then KeyDownEvent k else KeyUpEvent k) ∧
    KeyMod k = cks_Mod cks ∧
    Z.land (KeyMod k) Meta = 0 ∧
    (∀ k0, vkKeyEvent !! vkc = Some k0 → Sym k = Sym k0 ∧ Rune k = Rune k0) ∧
    (vkKeyEvent !! vkc = None → Sym k = KeyNone ∧ Rune k = unlisted_rune cks r).
Proof.
  rewrite parseWin32InputKeyEvent_unfold. cbv zeta.
  destruct (_ && _ && _); [by left|]. right.
  assert (Z.land (cks_Mod cks) Meta = 0) as Hmeta.
  { unfold cks_Mod.
    destruct (coninput.Contains cks (Z.lor coninput.LEFT_CTRL_PRESSED _)),
      (coninput.Contains cks (Z.lor coninput.LEFT_ALT_PRESSED _)),
      (coninput.Contains cks coninput.SHIFT_PRESSED); reflexivity. }
  destruct (vkKeyEvent !! vkc) as [k0|] eqn:Hk.
  - destruct keyDown.
    + eexists. split; [reflexivity|]. cbn [KeyMod Sym Rune].
      split; [done|]. split; [done|]. split; [|done].
      by intros ? [= <-].
    + eexists. split; [reflexivity|]. cbn [set_IsRepeat KeyMod Sym Rune].
      split; [done|]. split; [done|]. split; [|done].
      by intros ? [= <-].
  - destruct keyDown.
    + eexists. split; [reflexivity|]. cbn [KeyMod Sym Rune]. done.
    + eexists. split; [reflexivity|]. cbn [set_IsRepeat KeyMod Sym Rune]. done.
Qed.

(** X14. For a key that is not in [vkKeyEvent], with Ctrl held, the
    control characters 0x01 to 0x1a give the letters [a] to [z]; a
    character that has no case in [vkCtrlRune] (a digit, say) is lost:
    the event has modifiers but neither symbol nor character, unless a
    lock bit drops the record. *)
Theorem parseWin32InputKeyEvent_ctrl_unlisted
    (vkc sc r : Z) (keyDown : bool) (cks : Z) :
  vkKeyEvent !! vkc = None →
  ctrl_held cks = true →
  lock_on cks = false →
  parseWin32InputKeyEvent vkc sc r keyDown cks 1
  = (if keyDown then KeyDownEvent else KeyUpEvent)
      {| Sym := KeyNone;
         Rune := match ctrlRune r with Some c => c | None => 0 end;
         KeyMod := cks_Mod cks; IsRepeat := false |} ∧
  Z.land (cks_Mod cks) Ctrl = Ctrl ∧
  (1 ≤ r ≤ 26 → ctrlRune r = Some (r + rune "a" - 1)).
Proof.
  intros Hk Hctrl Hlock.
  rewrite parseWin32InputKeyEvent_unfold. cbv zeta.
  rewrite Hk, Hlock. cbn [andb]. unfold unlisted_rune. rewrite Hctrl.
  split; [by destruct keyDown|]. split.
  - unfold cks_Mod. unfold ctrl_held in Hctrl. rewrite Hctrl.
    destruct (coninput.Contains cks (Z.lor coninput.LEFT_ALT_PRESSED _)),
      (coninput.Contains cks coninput.SHIFT_PRESSED); reflexivity.
  - intros Hr. rewrite ctrlRune_letter by done. f_equal.
    change (rune "a") with 97. lia.
Qed.

Lemma parseWin32InputKeyEvent_ctrl_unlisted_witness :
  parseWin32InputKeyEvent 0x31 0 49 true coninput.LEFT_CTRL_PRESSED 1
  = (if true then KeyDownEvent else KeyUpEvent)
      {| Sym := KeyNone;
         Rune := match ctrlRune 49 with Some c => c | None => 0 end;
         KeyMod := cks_Mod coninput.LEFT_CTRL_PRESSED; IsRepeat := false |} ∧
  Z.land (cks_Mod coninput.LEFT_CTRL_PRESSED) Ctrl = Ctrl ∧
  (1 ≤ 49 ≤ 26 → ctrlRune 49 = Some (49 + rune "a" - 1)).
Proof.
  apply (parseWin32InputKeyEvent_ctrl_unlisted 0x31 0 49 true
           coninput.LEFT_CTRL_PRESSED); reflexivity.
Defined.

(* ================================================================== *)
(** * Further properties: key table construction *)

Section alt_entries.
Variable T0 : Table.
Hypothesis T0_esc_free : ∀ k, is_Some (T0 !! k) → esc_free_key k = true.

Lemma alt_entry_key (k : string) (v : Key) :
  alt_entry T0 k v → starts_with_control_or_space k = true.
Proof.
  induction 1 as [k v Hk|k v _ _].
  - apply esc_free_key_start, T0_esc_free. eauto.
  - apply starts_with_control_or_space_X1B.
Qed.

(** A key has one event, however it was entered. *)
Lemma alt_entry_functional (k : string) (v1 v2 : Key) :
  alt_entry T0 k v1 → alt_entry T0 k v2 → v1 = v2.
Proof.
  intros H1. revert v2.
  assert (∀ k' v v', T0 !! X1B k' = Some v → alt_entry T0 k' v' → False)
    as Hno.
  { intros k' v v' Hk Hk'. apply alt_entry_key in Hk'.
    assert (esc_free_key (X1B k') = true) as Hf
      by (apply T0_esc_free; eauto).
    apply esc_free_key_X1B in Hf. congruence. }
  induction H1 as [k v1 Hk1|k v1 H1 IH]; intros v2 H2.
  - inversion H2; simplify_eq; [done|]. exfalso. eauto.
  - inversion H2; simplify_eq; [exfalso; eauto|].
    f_equal. by apply IH.
Qed.

(** Every entry of a table that the loop reaches is one of these. *)
Lemma altStep_entries (st : Table * gset string) :
  rtc altStep (T0, ∅) st →
  ∀ k v, st.1 !! k = Some v → alt_entry T0 k v.
Proof.
  revert st.
  apply (rtc_ind_r (λ st : Table * gset string,
           ∀ k v, st.1 !! k = Some v → alt_entry T0 k v)).
  - intros k v Hk. by constructor.
  - intros y z _ Hstep IH k v Hk.
    destruct Hstep as [T seen k' v' Hk' Hnew]. cbn [fst] in *.
    rewrite lookup_insert in Hk. case_decide as Hd.
    + injection Hk as <-. subst k. apply alt_entry_esc. by apply IH.
    + by apply IH.
Qed.

Lemma altKeys_alt_entry (T : Table) (k : string) (v : Key) :
  altKeys T0 T → T !! k = Some v → alt_entry T0 k v.
Proof.
  intros (seen & Hrtc & _) Hk. by apply (altStep_entries _ Hrtc).
Qed.

(** A key that is not ESC followed by a control byte, SP or DEL is in
    the table after the loop as it was before. *)
Lemma altKeys_single_esc (T : Table) (q : string) :
  altKeys T0 T →
  (∀ r, q = X1B r → starts_with_control_or_space r = false) →
  T !! q = T0 !! q.
Proof.
  intros HT Hq.
  destruct (T0 !! q) as [v|] eqn:H0.
  - exact (proj2 (altKeys_entries _ T0_esc_free T q v HT H0)).
  - destruct (T !! q) as [v|] eqn:HTq; [|done].
    apply (altKeys_alt_entry _ _ _ HT) in HTq.
    inversion HTq as [k' v' Hk|k' v' Hk]; simplify_eq.
    apply alt_entry_key in Hk. rewrite (Hq k' eq_refl) in Hk. discriminate.
Qed.

(** An entry under ESC followed by a control byte, SP or DEL was put by
    the loop and has the Alt modifier. *)
Lemma altKeys_alt_bit (T : Table) (k : string) (v : Key) :
  altKeys T0 T →
  starts_with_control_or_space k = true →
  T !! X1B k = Some v →
  Z.land (KeyMod v) Alt = Alt.
Proof.
  intros HT Hk Hv. apply (altKeys_alt_entry _ _ _ HT) in Hv.
  inversion Hv as [k' v' Hk'|k' v' Hk']; simplify_eq.
  - assert (esc_free_key (X1B k) = true) as Hf
      by (apply T0_esc_free; eauto).
    apply esc_free_key_X1B in Hf. congruence.
  - cbn [or_Mod set_Mod KeyMod]. apply Z.bits_inj'. intros n Hn.
    rewrite Z.land_spec, Z.lor_spec.
    destruct (Z.testbit (KeyMod v') n), (Z.testbit Alt n); reflexivity.
Qed.
End alt_entries.

Lemma altKeys_fn_lookup (T0 : Table) (q : string) (v : Key) :
  altKeys_fn T0 !! q = Some v →
  T0 !! q = Some v ∨
  ∃ k v0, T0 !! k = Some v0 ∧ q = X1B k ∧ v = or_Mod v0 Alt.
Proof.
  unfold altKeys_fn.
  assert (∀ (l : list (string * Key)) (T : Table),
    (∀ k v0, (k, v0) ∈ l → T0 !! k = Some v0) →
    foldl (λ t kv, <[X1B kv.1 := or_Mod kv.2 Alt]> t) T l !! q = Some v →
    T !! q = Some v ∨
    ∃ k v0, T0 !! k = Some v0 ∧ q = X1B k ∧ v = or_Mod v0 Alt) as Hgen.
  { induction l as [|[k v0] l IH]; intros T Hl Hq; [by left|].
    cbn [foldl fst snd] in Hq.
    assert (∀ k' v', (k', v') ∈ l → T0 !! k' = Some v') as Hl'
      by (intros k' v' Hin; apply Hl; by right).
    destruct (IH _ Hl' Hq) as [Hq' | Hq']; [|by right].
    rewrite lookup_insert in Hq'. case_decide as Hd; [|by left].
    injection Hq' as <-. right. exists k, v0.
    split; [apply Hl; by left | done]. }
  apply Hgen. intros k v0 Hin. by apply elem_of_map_to_list.
Qed.

(** The table [registerKeys_revisit] is the result of a run: after the
    entries present at the start, the loop visits the entry of ESC NUL
    that it has inserted. *)
Lemma registerKeys_revisit_run
    (registerTerminfoKeys : Table → Table → Prop) :
  registerKeys registerTerminfoKeys FlagNoTerminfo registerKeys_revisit.
Proof.
  set (T0 := tableBeforeAlt_fn FlagNoTerminfo).
  set (k := X1B (byte_string ansi.NUL)).
  exists T0, registerKeys_revisit.
  split; [apply tableBeforeAlt_sound|]. split; [|reflexivity].
  exists ({[k]} ∪ (list_to_set (map_to_list T0).*1 ∪ ∅)). split.
  - eapply rtc_r.
    + apply altKeys_fn_run, tableBeforeAlt_esc_free.
    + apply (altStep_visit (altKeys_fn T0) _ k
               (KD KeySpace 0 (Z.lor Ctrl Alt))).
      * vm_compute. reflexivity.
      * intros [Hin | Hin%not_elem_of_empty]%elem_of_union; [|done].
        apply elem_of_list_to_set, list_elem_of_fmap in Hin
          as ([k' v'] & Hk' & Hin).
        apply elem_of_map_to_list in Hin. cbn [fst] in Hk'. subst k'.
        revert Hin. vm_compute. discriminate.
  - intros k' [v' Hk']%elem_of_dom.
    apply elem_of_union_r, elem_of_union_l, elem_of_list_to_set,
      list_elem_of_fmap.
    exists (k', v'). split; [done|]. by apply elem_of_map_to_list.
Qed.

(** X15. The events do not depend on the run: two tables that
    [registerKeys] can build from the same flags (terminfo phase
    switched off) have the same event under every key that is in both.
    Only the set of keys can differ. *)
Theorem registerKeys_events_agree
    (registerTerminfoKeys : Table → Table → Prop)
    (flags : Z) (T1 T2 : Table) (k : string) (v1 v2 : Key) :
  has flags FlagNoTerminfo = true →
  registerKeys registerTerminfoKeys flags T1 →
  registerKeys registerTerminfoKeys flags T2 →
  T1 !! k = Some v1 → T2 !! k = Some v2 →
  v1 = v2.
Proof.
  intros Hflag H1 H2 Hk1 Hk2.
  apply registerKeys_inv in H1; [|done].
  apply registerKeys_inv in H2; [|done].
  apply (altKeys_alt_entry _ _ _ _ H1) in Hk1.
  apply (altKeys_alt_entry _ _ _ _ H2) in Hk2.
  by apply (alt_entry_functional _ (tableBeforeAlt_esc_free flags) k).
Qed.

Lemma registerKeys_events_agree_witness :
  registerKeys_fn FlagNoTerminfo !! X1B (X1B (byte_string ansi.NUL)) = None ∧
  registerKeys_revisit !! X1B (X1B (byte_string ansi.NUL))
    = Some (KD KeySpace 0 (Z.lor Ctrl Alt)) ∧
  registerKeys_fn FlagNoTerminfo !! X1B (byte_string ansi.NUL)
    = Some (KD KeySpace 0 (Z.lor Ctrl Alt)) ∧
  registerKeys_revisit !! X1B (byte_string ansi.NUL)
    = Some (KD KeySpace 0 6) ∧
  KD KeySpace 0 (Z.lor Ctrl Alt) = KD KeySpace 0 6.
Proof.
  split; [vm_compute; reflexivity|]. split; [vm_compute; reflexivity|].
  assert (registerKeys_fn FlagNoTerminfo !! X1B (byte_string ansi.NUL)
          = Some (KD KeySpace 0 (Z.lor Ctrl Alt))) as H1
    by (vm_compute; reflexivity).
  assert (registerKeys_revisit !! X1B (byte_string ansi.NUL)
          = Some (KD KeySpace 0 6)) as H2
    by (vm_compute; reflexivity).
  split; [exact H1|]. split; [exact H2|].
  apply (registerKeys_events_agree (λ _ _, False) FlagNoTerminfo
           (registerKeys_fn FlagNoTerminfo) registerKeys_revisit
           (X1B (byte_string ansi.NUL))).
  - reflexivity.
  - apply registerKeys_fn_sound. exact eq_refl.
  - apply registerKeys_revisit_run.
  - exact H1.
  - exact H2.
Defined.

(** X16. The table of the run that visits only the entries present at
    the start of the last loop is the least one: every table that
    [registerKeys] can build (terminfo phase switched off) contains it,
    with the same events. *)
Theorem registerKeys_least_table
    (registerTerminfoKeys : Table → Table → Prop) (flags : Z) (T : Table) :
  has flags FlagNoTerminfo = true →
  registerKeys registerTerminfoKeys flags T →
  registerKeys_fn flags ⊆ T.
Proof.
  intros Hflag HT. apply registerKeys_inv in HT; [|done].
  apply map_subseteq_spec. intros q v Hq.
  apply altKeys_fn_lookup in Hq as [Hq | (k & v0 & Hk & Hqk & Hv)].
  - exact (proj2 (altKeys_entries _ (tableBeforeAlt_esc_free flags)
                    T q v HT Hq)).
  - subst q v.
    exact (proj1 (altKeys_entries _ (tableBeforeAlt_esc_free flags)
                    T k v0 HT Hk)).
Qed.

Lemma registerKeys_least_table_witness :
  registerKeys_fn FlagNoTerminfo !! X1B (X1B (byte_string ansi.NUL)) = None ∧
  registerKeys_revisit !! X1B (X1B (byte_string ansi.NUL))
    = Some (KD KeySpace 0 (Z.lor Ctrl Alt)) ∧
  registerKeys_fn FlagNoTerminfo ⊆ registerKeys_revisit.
Proof.
  split; [vm_compute; reflexivity|]. split; [vm_compute; reflexivity|].
  apply (registerKeys_least_table (λ _ _, False) FlagNoTerminfo).
  - reflexivity.
  - apply registerKeys_revisit_run.
Defined.

(** X17. A sequence that is not ESC followed by a control byte, SP or
    DEL has in every table that [registerKeys] can build (terminfo phase
    switched off) the binding, or none, that it has before the loop of
    the Alt combinations: for these sequences the table is a function of
    the flags. *)
Theorem registerKeys_single_esc
    (registerTerminfoKeys : Table → Table → Prop)
    (flags : Z) (T : Table) (q : string) :
  has flags FlagNoTerminfo = true →
  registerKeys registerTerminfoKeys flags T →
  (∀ r, q = X1B r → starts_with_control_or_space r = false) →
  T !! q = tableBeforeAlt_fn flags !! q.
Proof.
  intros Hflag HT Hq. apply registerKeys_inv in HT; [|done].
  by apply (altKeys_single_esc _ (tableBeforeAlt_esc_free flags)).
Qed.

Lemma registerKeys_single_esc_witness :
  registerKeys_fn FlagNoTerminfo !! X1B "[A"
  = tableBeforeAlt_fn FlagNoTerminfo !! X1B "[A".
Proof.
  apply (registerKeys_single_esc (λ _ _, False) FlagNoTerminfo).
  - reflexivity.
  - apply registerKeys_fn_sound. exact eq_refl.
  - intros r [= <-]. reflexivity.
Defined.

(** X18. The Alt law: in every table that [registerKeys] can build
    (terminfo phase switched off), an entry whose key is ESC followed by
    a control byte, SP or DEL carries the Alt modifier. *)
Theorem registerKeys_alt_bit
    (registerTerminfoKeys : Table → Table → Prop)
    (flags : Z) (T : Table) (k : string) (v : Key) :
  has flags FlagNoTerminfo = true →
  registerKeys registerTerminfoKeys flags T →
  starts_with_control_or_space k = true →
  T !! X1B k = Some v →
  Z.land (KeyMod v) Alt = Alt.
Proof.
  intros Hflag HT Hk Hv. apply registerKeys_inv in HT; [|done].
  by apply (altKeys_alt_bit _ (tableBeforeAlt_esc_free flags) T k).
Qed.

Lemma registerKeys_alt_bit_witness :
  Z.land (KeyMod (KD KeyUp 0 (Z.lor Shift Alt))) Alt = Alt.
Proof.
  apply (registerKeys_alt_bit (λ _ _, False) FlagNoTerminfo
           (registerKeys_fn FlagNoTerminfo) (X1B "[a")).
  - reflexivity.
  - apply registerKeys_fn_sound. exact eq_refl.
  - reflexivity.
  - vm_compute. reflexivity.
Defined.

Lemma tableBeforeAlt_literal
    (xterm : bool) (nul tab enter esc sp del find sel : Key) :
  Forall (λ kv, tableBeforeAlt_with xterm nul tab enter esc sp del find sel
                  !! kv.1 = Some kv.2)
    (table_literal nul tab enter esc sp del find sel).
Proof.
  unfold table_literal.
  destruct xterm;
    repeat (apply Forall_cons; split; [vm_compute; reflexivity|]);
    apply Forall_nil_2.
Qed.


(** X19. No later phase overwrites an entry of the VT100/VT200 literal:
    every entry [k → v] of the composite literal assigned to [d.table]
    is in every table that [registerKeys] can build (terminfo phase
    switched off), whatever the flags, and its Alt combination is there
    under ESC and [k]: the event [v] with the bit Alt set in its
    modifiers. *)
Theorem registerKeys_literal_kept
    (registerTerminfoKeys : Table → Table → Prop)
    (flags : Z) (T : Table) (k : string) (v : Key) :
  has flags FlagNoTerminfo = true →
  registerKeys registerTerminfoKeys flags T →
  (k, v) ∈ table_literal (nul flags) (tab flags) (enter flags) (esc flags)
             (sp flags) (del flags) (find flags) (sel flags) →
  T !! k = Some v ∧
  ∃ v',
    T !! X1B k = Some v' ∧
    v' = {| Sym := Sym v; Rune := Rune v;
            KeyMod := Z.lor (KeyMod v) Alt; IsRepeat := IsRepeat v |} ∧
    Z.land (KeyMod v') Alt = Alt ∧
    Z.testbit (KeyMod v') 1 = true ∧
    (∀ i, i ≠ 1 → Z.testbit (KeyMod v') i = Z.testbit (KeyMod v) i).
Proof.
  intros Hflag HT Hin. apply registerKeys_inv in HT; [|done].
  pose proof (tableBeforeAlt_literal (negb (has flags FlagNoXTerm))
                (nul flags) (tab flags) (enter flags) (esc flags)
                (sp flags) (del flags) (find flags) (sel flags)) as Hall.
  rewrite Forall_forall in Hall. specialize (Hall _ Hin). cbn [fst snd] in Hall.
  destruct (altKeys_entries _ (tableBeforeAlt_esc_free flags) T k v HT Hall)
    as [Halt Hk].
  split; [exact Hk|]. eexists. split; [exact Halt|].
  split; [reflexivity|]. exact (or_Mod_Alt_bits v).
Qed.

Lemma registerKeys_literal_kept_witness :
  registerKeys_fn (Z.lor FlagBackspace FlagNoTerminfo)
    !! byte_string ansi.DEL = Some (KD KeyDelete 0 0) ∧
  ∃ v',
    registerKeys_fn (Z.lor FlagBackspace FlagNoTerminfo)
      !! X1B (byte_string ansi.DEL) = Some v' ∧
    v' = {| Sym := Sym (KD KeyDelete 0 0); Rune := Rune (KD KeyDelete 0 0);
            KeyMod := Z.lor (KeyMod (KD KeyDelete 0 0)) Alt;
            IsRepeat := IsRepeat (KD KeyDelete 0 0) |} ∧
    Z.land (KeyMod v') Alt = Alt ∧
    Z.testbit (KeyMod v') 1 = true ∧
    (∀ i, i ≠ 1 →
       Z.testbit (KeyMod v') i = Z.testbit (KeyMod (KD KeyDelete 0 0)) i).
Proof.
  apply (registerKeys_literal_kept (λ _ _, False)
           (Z.lor FlagBackspace FlagNoTerminfo)).
  - reflexivity.
  - apply registerKeys_fn_sound. exact eq_refl.
  - unfold table_literal. do 33 apply list_elem_of_further.
    apply list_elem_of_here.
Defined.

Lemma family_present_spec {A : Type} (T : Table)
    (key : string → A → string) (entries : list (A * Key))
    (m : Z) (a : A) (v : Key) :
  family_present T key entries = true →
  1 ≤ m ≤ 15 → In (a, v) entries →
  T !! key (Itoa (m + 1)) a = Some (set_Mod v m).
Proof.
  unfold family_present. rewrite forallb_forall. intros Hall Hm Hin.
  specialize (Hall m). rewrite forallb_forall in Hall.
  specialize (Hall ltac:(apply list_elem_of_In, elem_of_seqZ; lia) (a, v) Hin).
  cbn [fst snd] in Hall. by apply bool_decide_eq_true in Hall.
Qed.

Lemma family_absent_spec {A : Type} (T : Table)
    (key : string → A → string) (entries : list (A * Key))
    (m : Z) (a : A) (v : Key) :
  family_absent T key entries = true →
  1 ≤ m ≤ 15 → In (a, v) entries →
  T !! key (Itoa (m + 1)) a = None.
Proof.
  unfold family_absent. rewrite forallb_forall. intros Hall Hm Hin.
  specialize (Hall m). rewrite forallb_forall in Hall.
  specialize (Hall ltac:(apply list_elem_of_In, elem_of_seqZ; lia) (a, v) Hin).
  cbn [fst] in Hall. by destruct (T !! key (Itoa (m + 1)) a).
Qed.


Lemma tableBeforeAlt_families (flags : Z) :
  has flags FlagNoXTerm = false →
  family_present (tableBeforeAlt_fn flags) ss3Func_key ss3FuncKeys_literal
  = true ∧
  family_present (tableBeforeAlt_fn flags) csiTilde_key
    (csiTildeKeys_literal (find flags) (sel flags)) = true ∧
  family_present (tableBeforeAlt_fn flags) modifyOther_key
    modifyOtherKeys_literal = true.
Proof.
  intros Hx. unfold tableBeforeAlt_fn. rewrite Hx. cbn [negb].
  unfold find, sel. cbv zeta.
  destruct (has flags FlagFind), (has flags FlagSelect);
    forget_locals flags; repeat split; vm_compute; reflexivity.
Qed.

Lemma tableBeforeAlt_no_families (flags : Z) :
  has flags FlagNoXTerm = true →
  family_absent (tableBeforeAlt_fn flags) csiFunc_key csiFuncKeys_literal
  = true ∧
  family_absent (tableBeforeAlt_fn flags) ss3Func_key ss3FuncKeys_literal
  = true ∧
  family_absent (tableBeforeAlt_fn flags) csiTilde_key
    (csiTildeKeys_literal (find flags) (sel flags)) = true ∧
  family_absent (tableBeforeAlt_fn flags) modifyOther_key
    modifyOtherKeys_literal = true.
Proof.
  intros Hx. unfold tableBeforeAlt_fn. rewrite Hx. cbn [negb].
  forget_locals flags. repeat split; vm_compute; reflexivity.
Qed.

Lemma tableBeforeAlt_urxvt (flags : Z) :
  urxvt_present (tableBeforeAlt_fn flags)
    (csiTildeKeys_literal (find flags) (sel flags)) = true.
Proof.
  unfold tableBeforeAlt_fn, find, sel. cbv zeta.
  destruct (has flags FlagFind), (has flags FlagSelect),
    (negb (has flags FlagNoXTerm));
    forget_locals flags; vm_compute; reflexivity.
Qed.

(** X20. The other XTerm families (the loops over [ss3FuncKeys] and
    [csiTildeKeys]): when the XTerm phase is not suppressed, for every
    [m] from 1 to 15 the table maps [ESC O m+1 F] to the keypad event of
    [F], and [ESC [ n ; m+1 ~] to the event of [n], with modifiers [m].
    The tilde family follows the flags: [ESC [ 1 ; m+1 ~] is Find under
    FlagFind and Home otherwise, [ESC [ 4 ; m+1 ~] is Select under
    FlagSelect and End otherwise. *)
Theorem registerKeys_xterm_ss3_tilde
    (registerTerminfoKeys : Table → Table → Prop)
    (flags : Z) (T : Table) (m : Z) :
  has flags FlagNoTerminfo = true →
  has flags FlagNoXTerm = false →
  registerKeys registerTerminfoKeys flags T →
  1 ≤ m ≤ 15 →
  (∀ F v, ss3FuncKeys !! F = Some v →
     T !! (X1B "O" +:+ Itoa (m + 1) +:+ F) = Some (set_Mod v m)) ∧
  (∀ n v, csiTildeKeys (find flags) (sel flags) !! n = Some v →
     T !! (X1B "[" +:+ n +:+ ";" +:+ Itoa (m + 1) +:+ "~")
     = Some (set_Mod v m)) ∧
  T !! (X1B "[" +:+ "1" +:+ ";" +:+ Itoa (m + 1) +:+ "~")
  = Some (KD (if has flags FlagFind then KeyFind else KeyHome) 0 m) ∧
  T !! (X1B "[" +:+ "4" +:+ ";" +:+ Itoa (m + 1) +:+ "~")
  = Some (KD (if has flags FlagSelect then KeySelect else KeyEnd) 0 m).
Proof.
  intros Hflag Hx HT Hm. apply registerKeys_inv in HT; [|done].
  destruct (tableBeforeAlt_families flags Hx) as (Hss3 & Htilde & _).
  assert (∀ n v, csiTildeKeys (find flags) (sel flags) !! n = Some v →
     T !! (X1B "[" +:+ n +:+ ";" +:+ Itoa (m + 1) +:+ "~")
     = Some (set_Mod v m)) as Ht.
  { intros n v Hn. apply elem_of_list_to_map_2, list_elem_of_In in Hn.
    pose proof (family_present_spec _ _ _ m n v Htilde Hm Hn) as Hk.
    exact (proj2 (altKeys_entries _ (tableBeforeAlt_esc_free flags)
                    T _ _ HT Hk)). }
  split; [|split; [exact Ht|split]].
  - intros F v HF. apply elem_of_list_to_map_2, list_elem_of_In in HF.
    pose proof (family_present_spec _ _ _ m F v Hss3 Hm HF) as Hk.
    exact (proj2 (altKeys_entries _ (tableBeforeAlt_esc_free flags)
                    T _ _ HT Hk)).
  - rewrite (Ht "1" (find flags)).
    + unfold find. by destruct (has flags FlagFind).
    + unfold find. by destruct (has flags FlagFind).
  - rewrite (Ht "4" (sel flags)).
    + unfold sel. by destruct (has flags FlagSelect).
    + unfold sel. by destruct (has flags FlagSelect).
Qed.

Lemma registerKeys_xterm_ss3_tilde_witness :
  (∀ F v, ss3FuncKeys !! F = Some v →
     registerKeys_fn (Z.lor FlagFind FlagNoTerminfo)
       !! (X1B "O" +:+ Itoa (5 + 1) +:+ F) = Some (set_Mod v 5)) ∧
  (∀ n v,
     csiTildeKeys (find (Z.lor FlagFind FlagNoTerminfo))
       (sel (Z.lor FlagFind FlagNoTerminfo)) !! n = Some v →
     registerKeys_fn (Z.lor FlagFind FlagNoTerminfo)
       !! (X1B "[" +:+ n +:+ ";" +:+ Itoa (5 + 1) +:+ "~")
     = Some (set_Mod v 5)) ∧
  registerKeys_fn (Z.lor FlagFind FlagNoTerminfo)
    !! (X1B "[" +:+ "1" +:+ ";" +:+ Itoa (5 + 1) +:+ "~")
  = Some (KD (if has (Z.lor FlagFind FlagNoTerminfo) FlagFind
              then KeyFind else KeyHome) 0 5) ∧
  registerKeys_fn (Z.lor FlagFind FlagNoTerminfo)
    !! (X1B "[" +:+ "4" +:+ ";" +:+ Itoa (5 + 1) +:+ "~")
  = Some (KD (if has (Z.lor FlagFind FlagNoTerminfo) FlagSelect
              then KeySelect else KeyEnd) 0 5).
Proof.
  apply (registerKeys_xterm_ss3_tilde (λ _ _, False)
           (Z.lor FlagFind FlagNoTerminfo)).
  - reflexivity.
  - reflexivity.
  - apply registerKeys_fn_sound. exact eq_refl.
  - lia.
Defined.

(** X21. The table and the parser agree on XTerm modifyOtherKeys: when
    the XTerm phase is not suppressed, for every [m] from 1 to 15 and
    every code [c] of [modifyOtherKeys], the event that the table has
    for [ESC [ 27 ; m+1 ; c ~] is the event that
    [parseXTermModifyOtherKeys] returns for the parameters 27, [m+1],
    [c]. *)
Theorem registerKeys_modifyOtherKeys_agree
    (registerTerminfoKeys : Table → Table → Prop)
    (flags : Z) (T : Table) (m c : Z) (v : Key) :
  has flags FlagNoTerminfo = true →
  has flags FlagNoXTerm = false →
  registerKeys registerTerminfoKeys flags T →
  1 ≤ m ≤ 15 →
  modifyOtherKeys !! c = Some v →
  T !! (X1B "[27;" +:+ Itoa (m + 1) +:+ ";" +:+ Itoa c +:+ "~")
  = Some (set_Mod v m) ∧
  parseXTermModifyOtherKeys [[27]; [m + 1]; [c]]
  = Some (KeyDownEvent (set_Mod v m)).
Proof.
  intros Hflag Hx HT Hm Hc. apply registerKeys_inv in HT; [|done].
  destruct (tableBeforeAlt_families flags Hx) as (_ & _ & Hmok).
  split.
  - apply elem_of_list_to_map_2, list_elem_of_In in Hc.
    pose proof (family_present_spec _ _ _ m c v Hmok Hm Hc) as Hk.
    exact (proj2 (altKeys_entries _ (tableBeforeAlt_esc_free flags)
                    T _ _ HT Hk)).
  - unfold parseXTermModifyOtherKeys. cbn [param0 lookup list_lookup].
    assert (to_Mod (wrap_uint64 (m + 1 - 1)) = m) as ->.
    { unfold to_Mod, wrap_uint64. replace (m + 1 - 1) with m by lia.
      rewrite (Z.mod_small m (2 ^ 64)) by lia. apply Z.mod_small. lia. }
    assert (to_rune c = c) as ->.
    { pose proof (modifyOtherKeys_codes c v Hc).
      unfold to_rune. rewrite Z.mod_small by lia. lia. }
    by rewrite Hc.
Qed.

Lemma registerKeys_modifyOtherKeys_agree_witness :
  registerKeys_fn FlagNoTerminfo
    !! (X1B "[27;" +:+ Itoa (5 + 1) +:+ ";" +:+ Itoa 13 +:+ "~")
  = Some (set_Mod (KD KeyEnter 0 0) 5) ∧
  parseXTermModifyOtherKeys [[27]; [5 + 1]; [13]]
  = Some (KeyDownEvent (set_Mod (KD KeyEnter 0 0) 5)).
Proof.
  apply (registerKeys_modifyOtherKeys_agree (λ _ _, False) FlagNoTerminfo).
  - reflexivity.
  - reflexivity.
  - apply registerKeys_fn_sound. exact eq_refl.
  - lia.
  - vm_compute. reflexivity.
Defined.

(** X22. The URxvt forms: whatever the flags, for every entry [n → v] of
    the tilde family the table maps [ESC [ n $] to [v] with Shift,
    [ESC [ n ^] to [v] with Ctrl and [ESC [ n @] to [v] with Shift and
    Ctrl. The literal assignments of the URxvt function keys that follow
    the loop leave these bindings as the loop made them. *)
Theorem registerKeys_urxvt_suffixes
    (registerTerminfoKeys : Table → Table → Prop)
    (flags : Z) (T : Table) (n : string) (v : Key) :
  has flags FlagNoTerminfo = true →
  registerKeys registerTerminfoKeys flags T →
  csiTildeKeys (find flags) (sel flags) !! n = Some v →
  T !! (X1B "[" +:+ n +:+ "$") = Some (set_Mod v Shift) ∧
  T !! (X1B "[" +:+ n +:+ "^") = Some (set_Mod v Ctrl) ∧
  T !! (X1B "[" +:+ n +:+ "@") = Some (set_Mod v (Z.lor Shift Ctrl)).
Proof.
  intros Hflag HT Hn. apply registerKeys_inv in HT; [|done].
  apply elem_of_list_to_map_2, list_elem_of_In in Hn.
  pose proof (tableBeforeAlt_urxvt flags) as Hall.
  unfold urxvt_present in Hall. rewrite forallb_forall in Hall.
  specialize (Hall _ Hn). cbn [fst snd] in Hall.
  apply andb_true_iff in Hall as [Hall H3%bool_decide_eq_true].
  apply andb_true_iff in Hall as [H1%bool_decide_eq_true H2%bool_decide_eq_true].
  split; [|split];
    refine (proj2 (altKeys_entries _ (tableBeforeAlt_esc_free flags)
                     T _ _ HT _)); assumption.
Qed.

Lemma registerKeys_urxvt_suffixes_witness :
  registerKeys_fn FlagNoTerminfo !! (X1B "[" +:+ "23" +:+ "$")
  = Some (set_Mod (KD KeyF11 0 0) Shift) ∧
  registerKeys_fn FlagNoTerminfo !! (X1B "[" +:+ "23" +:+ "^")
  = Some (set_Mod (KD KeyF11 0 0) Ctrl) ∧
  registerKeys_fn FlagNoTerminfo !! (X1B "[" +:+ "23" +:+ "@")
  = Some (set_Mod (KD KeyF11 0 0) (Z.lor Shift Ctrl)).
Proof.
  apply (registerKeys_urxvt_suffixes (λ _ _, False) FlagNoTerminfo).
  - reflexivity.
  - apply registerKeys_fn_sound. exact eq_refl.
  - vm_compute. reflexivity.
Defined.

(** X23. FlagNoXTerm suppresses the four XTerm families: with the flag
    set, no table that [registerKeys] can build (terminfo phase switched
    off) has a key [ESC [ 1 ; m+1 F], [ESC O m+1 F], [ESC [ n ; m+1 ~]
    or [ESC [ 27 ; m+1 ; c ~], for any [m] from 1 to 15 and any entry of
    the family. *)
Theorem registerKeys_NoXTerm
    (registerTerminfoKeys : Table → Table → Prop)
    (flags : Z) (T : Table) (m : Z) :
  has flags FlagNoTerminfo = true →
  has flags FlagNoXTerm = true →
  registerKeys registerTerminfoKeys flags T →
  1 ≤ m ≤ 15 →
  (∀ F v, csiFuncKeys !! F = Some v →
     T !! (X1B "[1;" +:+ Itoa (m + 1) +:+ F) = None) ∧
  (∀ F v, ss3FuncKeys !! F = Some v →
     T !! (X1B "O" +:+ Itoa (m + 1) +:+ F) = None) ∧
  (∀ n v, csiTildeKeys (find flags) (sel flags) !! n = Some v →
     T !! (X1B "[" +:+ n +:+ ";" +:+ Itoa (m + 1) +:+ "~") = None) ∧
  (∀ c v, modifyOtherKeys !! c = Some v →
     T !! (X1B "[27;" +:+ Itoa (m + 1) +:+ ";" +:+ Itoa c +:+ "~") = None).
Proof.
  intros Hflag Hx HT Hm. apply registerKeys_inv in HT; [|done].
  destruct (tableBeforeAlt_no_families flags Hx) as (H1 & H2 & H3 & H4).
  assert (∀ q, (∀ r, q = X1B r → starts_with_control_or_space r = false) →
               tableBeforeAlt_fn flags !! q = None → T !! q = None) as Hgo.
  { intros q Hq H0.
    by rewrite (altKeys_single_esc _ (tableBeforeAlt_esc_free flags) T q). }
  repeat split.
  - intros F v HF%elem_of_list_to_map_2%list_elem_of_In.
    apply Hgo; [by intros r [= <-]|].
    exact (family_absent_spec _ csiFunc_key _ m F v H1 Hm HF).
  - intros F v HF%elem_of_list_to_map_2%list_elem_of_In.
    apply Hgo; [by intros r [= <-]|].
    exact (family_absent_spec _ ss3Func_key _ m F v H2 Hm HF).
  - intros n v Hn%elem_of_list_to_map_2%list_elem_of_In.
    apply Hgo; [by intros r [= <-]|].
    exact (family_absent_spec _ csiTilde_key _ m n v H3 Hm Hn).
  - intros c v Hc%elem_of_list_to_map_2%list_elem_of_In.
    apply Hgo; [by intros r [= <-]|].
    exact (family_absent_spec _ modifyOther_key _ m c v H4 Hm Hc).
Qed.

Lemma registerKeys_NoXTerm_witness :
  (∀ F v, csiFuncKeys !! F = Some v →
     registerKeys_fn (Z.lor FlagNoXTerm FlagNoTerminfo)
       !! (X1B "[1;" +:+ Itoa (5 + 1) +:+ F) = None) ∧
  (∀ F v, ss3FuncKeys !! F = Some v →
     registerKeys_fn (Z.lor FlagNoXTerm FlagNoTerminfo)
       !! (X1B "O" +:+ Itoa (5 + 1) +:+ F) = None) ∧
  (∀ n v,
     csiTildeKeys (find (Z.lor FlagNoXTerm FlagNoTerminfo))
       (sel (Z.lor FlagNoXTerm FlagNoTerminfo)) !! n = Some v →
     registerKeys_fn (Z.lor FlagNoXTerm FlagNoTerminfo)
       !! (X1B "[" +:+ n +:+ ";" +:+ Itoa (5 + 1) +:+ "~") = None) ∧
  (∀ c v, modifyOtherKeys !! c = Some v →
     registerKeys_fn (Z.lor FlagNoXTerm FlagNoTerminfo)
       !! (X1B "[27;" +:+ Itoa (5 + 1) +:+ ";" +:+ Itoa c +:+ "~") = None).
Proof.
  apply (registerKeys_NoXTerm (λ _ _, False)
           (Z.lor FlagNoXTerm FlagNoTerminfo)).
  - reflexivity.
  - reflexivity.
  - apply registerKeys_fn_sound. exact eq_refl.
  - lia.
Defined.

